(** * AD compliance engine: schema, decision pipeline and fleet aggregation

    A shallow embedding of [ad_compliance_schema.py] and
    [ad_compliance_engine.py].

    Modelling conventions.
    - A Python [int] is a [Z] (unbounded).
    - A Python [str] is a [string]; each [ascii] is read as the code point
      of the same number, so the model covers text of code points below 256.
    - The [dict] that [evaluate_fleet] fills is a [gmap string _] (the order
      of its keys is not modelled); a [dict] of a JSON document is an
      association list.
    - A call that can raise returns [py_result]: [Raise e] or [Return v]. *)

From Stdlib Require Import ZArith Lia List String Ascii Bool.
From stdpp Require Import base option list strings pretty gmap fin_maps.
Import ListNotations.
Local Open Scope string_scope.
Local Open Scope Z_scope.
Set Warnings "-register-all".

(** ** Python built-ins used by the program *)

Module Py.

(** [str.lower] on one code point below 256: the letters A-Z and the
    upper-case letters of the Latin-1 supplement (all of 192..222 but the
    multiplication sign 215) move up by 32. *)
Definition lower_char (c : ascii) : ascii :=
  let n := N_of_ascii c in
  if ((65 <=? n) && (n <=? 90)
      || (192 <=? n) && (n <=? 222) && negb (n =? 215))%N
  then ascii_of_N (n + 32)
  else c.

(** [s.lower()] *)
Fixpoint lower (s : string) : string :=
  match s with
  | EmptyString => EmptyString
  | String c t => String (lower_char c) (lower t)
  end.

(** [str.isspace] on one code point below 256: tab, line feed, vertical
    tab, form feed, carriage return, the separators 28..31, space, next
    line (133) and no-break space (160). *)
Definition is_space (c : ascii) : bool :=
  let n := N_of_ascii c in
  ((9 <=? n) && (n <=? 13) || (28 <=? n) && (n <=? 32)
   || (n =? 133) || (n =? 160))%N.

(** [s.lstrip()] *)
Fixpoint lstrip (s : string) : string :=
  match s with
  | EmptyString => EmptyString
  | String c t => if is_space c then lstrip t else s
  end.

(** [s.rstrip()] *)
Fixpoint rstrip (s : string) : string :=
  match s with
  | EmptyString => EmptyString
  | String c t =>
      match rstrip t with
      | EmptyString => if is_space c then EmptyString else String c EmptyString
      | r => String c r
      end
  end.

(** [s.strip()] *)
Definition strip (s : string) : string := rstrip (lstrip s).

(** [needle in hay] on strings: [needle] occurs at some offset of [hay]. *)
Fixpoint contains (needle hay : string) : bool :=
  String.prefix needle hay
  || match hay with
     | EmptyString => false
     | String _ t => contains needle t
     end.

(** [sep.join(parts)] *)
Fixpoint join (sep : string) (parts : list string) : string :=
  match parts with
  | [] => ""
  | [p] => p
  | p :: rest => p +:+ sep +:+ join sep rest
  end.

(** [str(n)] for an [int], as an f-string renders it: decimal digits,
    with a leading minus sign below zero. *)
Definition str_int (n : Z) : string := pretty n.

(** [x in xs] on a list of strings. *)
Definition str_in (x : string) (xs : list string) : bool :=
  existsb (String.eqb x) xs.

(** [n in ns] on a list of integers. *)
Definition int_in (n : Z) (ns : list Z) : bool :=
  existsb (Z.eqb n) ns.

(** The exceptions the program can raise. *)
Inductive exception : Type :=
| OSError
| JSONDecodeError
| KeyError (key : string)
| TypeError
| ValidationError (field : string).

Inductive py_result (A : Type) : Type :=
| Raise (e : exception)
| Return (v : A).
Arguments Raise {A} e.
Arguments Return {A} v.

Global Instance py_result_ret : MRet py_result := fun A v => Return v.
Global Instance py_result_bind : MBind py_result := fun A B k m =>
  match m with
  | Raise e => Raise e
  | Return v => k v
  end.

(** What [json.load] returns: [None], [bool], [int], [str], [list] and
    [dict] (string keys, later duplicates already merged by the parser).
    Numbers with a fraction or an exponent are left out of the document
    type. *)
Inductive json : Type :=
| JNull
| JBool (b : bool)
| JInt (n : Z)
| JStr (s : string)
| JList (items : list json)
| JDict (entries : list (string * json)).

(** [d.get(key)] on the entries of a dict. *)
Fixpoint dict_get (entries : list (string * json)) (key : string) : option json :=
  match entries with
  | [] => None
  | (k, v) :: rest => if String.eqb k key then Some v else dict_get rest key
  end.

(** [bool(v)] *)
Definition truthy (v : json) : bool :=
  match v with
  | JNull => false
  | JBool b => b
  | JInt n => negb (n =? 0)
  | JStr s => negb (String.eqb s "")
  | JList items => match items with [] => false | _ => true end
  | JDict entries => match entries with [] => false | _ => true end
  end.

(** [v == key] for a string [key]. *)
Definition eq_str (key : string) (v : json) : bool :=
  match v with
  | JStr s => String.eqb s key
  | _ => false
  end.

(** [key in v]: key membership on a dict, element membership on a list,
    substring test on a string, [TypeError] on the rest. *)
Definition key_in (key : string) (v : json) : py_result bool :=
  match v with
  | JDict entries => Return (bool_decide (is_Some (dict_get entries key)))
  | JList items => Return (existsb (eq_str key) items)
  | JStr s => Return (contains key s)
  | _ => Raise TypeError
  end.

(** [v[key]] for a string [key]. *)
Definition getitem (v : json) (key : string) : py_result json :=
  match v with
  | JDict entries =>
      match dict_get entries key with
      | Some x => Return x
      | None => Raise (KeyError key)
      end
  | _ => Raise TypeError
  end.

(** The characters of a string, each as a string of length one. *)
Fixpoint chars (s : string) : list json :=
  match s with
  | EmptyString => []
  | String c t => JStr (String c EmptyString) :: chars t
  end.

(** The values [for x in v] runs through. *)
Definition iterate (v : json) : py_result (list json) :=
  match v with
  | JList items => Return items
  | JDict entries => Return (map (fun kv => JStr (fst kv)) entries)
  | JStr s => Return (chars s)
  | _ => Raise TypeError
  end.

(** A list comprehension [[f(x) for x in items]]: the first exception
    ends it. *)
Fixpoint comprehension {A} (f : json -> py_result A) (items : list json)
  : py_result (list A) :=
  match items with
  | [] => Return []
  | x :: rest =>
      y ← f x; ys ← comprehension f rest; Return (y :: ys)
  end.

End Py.

(** ** Field validation as the schema's base class performs it

    A model built from the keywords of a dict [data] checks each declared field of [data] in declaration
    order; keys that are not fields are ignored. The exception raised
    carries every failing field; the model keeps the first. *)

Module Pydantic.

Import Py.

(** A field without default: the key must be present and valid. *)
Definition required {A} (entries : list (string * json)) (name : string)
    (valid : json -> option A) : py_result A :=
  match dict_get entries name with
  | None => Raise (ValidationError name)
  | Some v =>
      match valid v with
      | Some x => Return x
      | None => Raise (ValidationError name)
      end
  end.

(** A field with a default: an absent key takes the default, a present one
    must be valid. *)
Definition defaulted {A} (entries : list (string * json)) (name : string)
    (default : A) (valid : json -> option A) : py_result A :=
  match dict_get entries name with
  | None => Return default
  | Some v =>
      match valid v with
      | Some x => Return x
      | None => Raise (ValidationError name)
      end
  end.

(** [str] *)
Definition str (v : json) : option string :=
  match v with
  | JStr s => Some s
  | _ => None
  end.

(** [Optional[T]] *)
Definition optional {A} (valid : json -> option A) (v : json) : option (option A) :=
  match v with
  | JNull => Some None
  | _ => Some <$> valid v
  end.

(** [List[T]] *)
Definition list_of {A} (valid : json -> option A) (v : json) : option (list A) :=
  match v with
  | JList items => mapM valid items
  | _ => None
  end.

(** [Dict[str, Any]] *)
Definition dict_any (v : json) : option (list (string * json)) :=
  match v with
  | JDict entries => Some entries
  | _ => None
  end.

End Pydantic.

(** ** ad_compliance_schema.py *)

Inductive MSNConstraintType : Type := RANGE | LIST | ALL.

(** The member of [MSNConstraintType] with a given value. *)
Definition MSNConstraintType_of (v : Py.json) : option MSNConstraintType :=
  match v with
  | Py.JStr s =>
      if String.eqb s "range" then Some RANGE
      else if String.eqb s "list" then Some LIST
      else if String.eqb s "all" then Some ALL
      else None
  | _ => None
  end.

Module MSNConstraint.

Record t : Type := Build {
  type : MSNConstraintType;
  min_msn : option Z;
  max_msn : option Z;
  msn_list : option (list Z);
}.

(** [self.msn_list or []] *)
Definition msn_list_or_empty (self : t) : list Z :=
  match msn_list self with
  | Some (x :: l) => x :: l
  | _ => []
  end.

Definition matches (self : t) (msn : Z) : bool :=
  match type self with
  | ALL => true
  | RANGE =>
      if match min_msn self with Some lo => msn <? lo | None => false end
      then false
      else if match max_msn self with Some hi => msn >? hi | None => false end
      then false
      else true
  | LIST => Py.int_in msn (msn_list_or_empty self)
  end.

Section Construction.

(** The base class's validation of an [int] field, which also coerces
    some values of other types; the loader is stated for any such
    coercion. *)
Variable int_field : Py.json -> option Z.

(** Validation of the fields of a dict. *)
Definition validate (entries : list (string * Py.json)) : Py.py_result t :=
  type ← Pydantic.required entries "type" MSNConstraintType_of;
  min_msn ← Pydantic.defaulted entries "min_msn" None (Pydantic.optional int_field);
  max_msn ← Pydantic.defaulted entries "max_msn" None (Pydantic.optional int_field);
  msn_list ← Pydantic.defaulted entries "msn_list" None
               (Pydantic.optional (Pydantic.list_of int_field));
  Py.Return (Build type min_msn max_msn msn_list).

(** [MSNConstraint] called with the keywords of [data], which must be a
    mapping. *)
Definition construct (data : Py.json) : Py.py_result t :=
  match data with
  | Py.JDict entries => validate entries
  | _ => Py.Raise Py.TypeError
  end.

End Construction.

End MSNConstraint.

Module ModificationConstraint.

Record t : Type := Build {
  mod_id : string;
  aliases : list string;
  description : option string;
}.

(** The [for alias in self.aliases] loop of [matches]. *)
Fixpoint any_alias (aliases : list string) (mod_lower : string) : bool :=
  match aliases with
  | [] => false
  | alias :: rest =>
      if Py.contains (Py.lower alias) mod_lower then true
      else any_alias rest mod_lower
  end.

Definition matches (self : t) (modification : string) : bool :=
  let mod_lower := Py.strip (Py.lower modification) in
  if Py.contains (Py.lower (mod_id self)) mod_lower then true
  else any_alias (aliases self) mod_lower.

(** Validation of the fields of a dict. *)
Definition validate (entries : list (string * Py.json)) : Py.py_result t :=
  mod_id ← Pydantic.required entries "mod_id" Pydantic.str;
  aliases ← Pydantic.defaulted entries "aliases" [] (Pydantic.list_of Pydantic.str);
  description ← Pydantic.defaulted entries "description" None
                  (Pydantic.optional Pydantic.str);
  Py.Return (Build mod_id aliases description).

(** [ModificationConstraint] called with the keywords of [data], which must
    be a mapping. *)
Definition construct (data : Py.json) : Py.py_result t :=
  match data with
  | Py.JDict entries => validate entries
  | _ => Py.Raise Py.TypeError
  end.

End ModificationConstraint.

Module ApplicabilityRules.

Record t : Type := Build {
  aircraft_models : list string;
  msn_constraints : option MSNConstraint.t;
  excluded_if_modifications : list ModificationConstraint.t;
  required_modifications : list ModificationConstraint.t;
  additional_constraints : list (string * Py.json);
}.

(** Validation of the rules dict as [load_rules] leaves it: the entries
    it has overwritten hold instances already ([excluded], [required],
    [msn], each [None] when [load_rules] did not assign the key), which
    are taken as they are; the other fields are validated from the
    document. *)
Definition validate (int_field : Py.json -> option Z) (data : Py.json)
    (excluded required : option (list ModificationConstraint.t))
    (msn : option MSNConstraint.t) : Py.py_result t :=
  match data with
  | Py.JDict entries =>
      aircraft_models ← Pydantic.required entries "aircraft_models"
                          (Pydantic.list_of Pydantic.str);
      msn_constraints ←
        match msn with
        | Some c => Py.Return (Some c)
        | None =>
            match Py.dict_get entries "msn_constraints" with
            | None | Some Py.JNull => Py.Return None
            | Some (Py.JDict fields) =>
                match MSNConstraint.validate int_field fields with
                | Py.Return c => Py.Return (Some c)
                | Py.Raise _ => Py.Raise (Py.ValidationError "msn_constraints")
                end
            | Some _ => Py.Raise (Py.ValidationError "msn_constraints")
            end
        end;
      additional_constraints ← Pydantic.defaulted entries "additional_constraints" []
                                 Pydantic.dict_any;
      Py.Return (Build aircraft_models msn_constraints (default [] excluded)
                   (default [] required) additional_constraints)
  | _ => Py.Raise (Py.ValidationError "applicability_rules")
  end.

End ApplicabilityRules.

Module AirworthinessDirective.

Record t : Type := Build {
  ad_id : string;
  issuing_authority : string;
  title : option string;
  effective_date : option string;
  applicability_rules : ApplicabilityRules.t;
  summary : option string;
}.

(** [AirworthinessDirective] called with the keywords of [ad_data], a dict
    whose rules entry [load_rules] has prepared. *)
Definition construct (int_field : Py.json -> option Z) (ad_data : Py.json)
    (excluded required : option (list ModificationConstraint.t))
    (msn : option MSNConstraint.t) : Py.py_result t :=
  match ad_data with
  | Py.JDict entries =>
      ad_id ← Pydantic.required entries "ad_id" Pydantic.str;
      issuing_authority ← Pydantic.required entries "issuing_authority" Pydantic.str;
      title ← Pydantic.defaulted entries "title" None (Pydantic.optional Pydantic.str);
      effective_date ← Pydantic.defaulted entries "effective_date" None
                         (Pydantic.optional Pydantic.str);
      applicability_rules ←
        match Py.dict_get entries "applicability_rules" with
        | Some data => ApplicabilityRules.validate int_field data excluded required msn
        | None => Py.Raise (Py.ValidationError "applicability_rules")
        end;
      summary ← Pydantic.defaulted entries "summary" None (Pydantic.optional Pydantic.str);
      Py.Return (Build ad_id issuing_authority title effective_date
                   applicability_rules summary)
  | _ => Py.Raise Py.TypeError
  end.

End AirworthinessDirective.

Module AircraftConfiguration.

Record t : Type := Build {
  aircraft_model : string;
  msn : Z;
  modifications : list string;
  additional_info : list (string * Py.json);
}.

End AircraftConfiguration.

Module ComplianceResult.

Record t : Type := Build {
  ad_id : string;
  aircraft_model : string;
  msn : Z;
  is_affected : bool;
  status : string;
  reason : string;
}.

End ComplianceResult.

(** ** ad_compliance_engine.py *)

Module ADComplianceEngine.

Import ApplicabilityRules.

Record t : Type := Build {
  ads : list AirworthinessDirective.t;
}.

#[local] Abbreviation rules ad := (AirworthinessDirective.applicability_rules ad).
#[local] Abbreviation model_of a := (AircraftConfiguration.aircraft_model a).
#[local] Abbreviation msn_of a := (AircraftConfiguration.msn a).
#[local] Abbreviation mods_of a := (AircraftConfiguration.modifications a).

Section Loading.

(** [open(path)] followed by [json.load]: the parsed document, or the
    exception of a missing file or of malformed JSON. *)
Variable read_json : string -> Py.py_result Py.json.

(** The base class's validation of an [int] field. *)
Variable int_field : Py.json -> option Z.

(** The two list comprehensions of the loop body, for [key] one of
    [excluded_if_modifications] and [required_modifications]: the list
    assigned under [key], or [None] when the key is not in the rules. *)
Definition convert_modifications (rules : Py.json) (key : string)
  : Py.py_result (option (list ModificationConstraint.t)) :=
  present ← Py.key_in key rules;
  if present : bool then
    raw ← Py.getitem rules key;
    mods ← Py.iterate raw;
    converted ← Py.comprehension ModificationConstraint.construct mods;
    Py.Return (Some converted)
  else Py.Return None.

(** The conversion of [msn_constraints]: done only for a key that is
    present with a true value. *)
Definition convert_msn_constraints (rules : Py.json)
  : Py.py_result (option MSNConstraint.t) :=
  present ← Py.key_in "msn_constraints" rules;
  if present : bool then
    raw ← Py.getitem rules "msn_constraints";
    if Py.truthy raw then
      c ← MSNConstraint.construct int_field raw;
      Py.Return (Some c)
    else Py.Return None
  else Py.Return None.

(** The body of the loop of [load_rules] up to the [append]. *)
Definition load_one (ad_data : Py.json) : Py.py_result AirworthinessDirective.t :=
  rules ← Py.getitem ad_data "applicability_rules";
  excluded ← convert_modifications rules "excluded_if_modifications";
  required ← convert_modifications rules "required_modifications";
  msn ← convert_msn_constraints rules;
  AirworthinessDirective.construct int_field ad_data excluded required msn.

(** The loop of [load_rules]: each directive is appended to [self.ads]
    as soon as it is built; an exception leaves the loop with the
    directives appended so far still in [self.ads]. *)
Fixpoint load_loop (self : t) (rules_data : list Py.json) : t * Py.py_result unit :=
  match rules_data with
  | [] => (self, Py.Return tt)
  | ad_data :: rest =>
      match load_one ad_data with
      | Py.Raise e => (self, Py.Raise e)
      | Py.Return ad => load_loop (Build (ads self ++ [ad])%list) rest
      end
  end.

(** [load_rules]: the engine after the call, and how the call ended. *)
Definition load_rules (self : t) (rules_path : string) : t * Py.py_result unit :=
  match rules_data ← read_json rules_path; Py.iterate rules_data with
  | Py.Raise e => (self, Py.Raise e)
  | Py.Return items => load_loop self items
  end.

(** [ADComplianceEngine(ad_rules_path)]: the caller gets an engine only
    when [load_rules] returns. *)
Definition init (ad_rules_path : string) : Py.py_result t :=
  let self := Build [] in
  match load_rules self ad_rules_path with
  | (self, Py.Return _) => Py.Return self
  | (_, Py.Raise e) => Py.Raise e
  end.

End Loading.

Definition check_aircraft_model (self : t) (aircraft : AircraftConfiguration.t)
    (ad : AirworthinessDirective.t) : bool * string :=
  if negb (Py.str_in (model_of aircraft) (aircraft_models (rules ad)))
  then (false, "Aircraft model '" +:+ model_of aircraft
                 +:+ "' is not in the affected models list")
  else (true, "Aircraft model '" +:+ model_of aircraft
                +:+ "' is in the affected models list").

Definition check_msn_constraints (self : t) (aircraft : AircraftConfiguration.t)
    (ad : AirworthinessDirective.t) : bool * string :=
  match msn_constraints (rules ad) with
  | None => (true, "No MSN constraints specified")
  | Some c =>
      if MSNConstraint.matches c (msn_of aircraft)
      then (true, "MSN " +:+ Py.str_int (msn_of aircraft) +:+ " meets the constraints")
      else (false, "MSN " +:+ Py.str_int (msn_of aircraft)
                     +:+ " does not meet the constraints")
  end.

(** The inner loop [for aircraft_mod in aircraft.modifications]: the first
    modification the constraint matches, if any. *)
Fixpoint first_match (c : ModificationConstraint.t) (mods : list string)
  : option string :=
  match mods with
  | [] => None
  | aircraft_mod :: rest =>
      if ModificationConstraint.matches c aircraft_mod then Some aircraft_mod
      else first_match c rest
  end.

(** The two nested loops: the first constraint, in list order, that
    matches some modification, with the first modification it matches. *)
Fixpoint first_hit (cs : list ModificationConstraint.t) (mods : list string)
  : option (ModificationConstraint.t * string) :=
  match cs with
  | [] => None
  | c :: rest =>
      match first_match c mods with
      | Some aircraft_mod => Some (c, aircraft_mod)
      | None => first_hit rest mods
      end
  end.

Definition check_excluded_modifications (self : t)
    (aircraft : AircraftConfiguration.t) (ad : AirworthinessDirective.t)
  : bool * string :=
  match first_hit (excluded_if_modifications (rules ad)) (mods_of aircraft) with
  | Some (excluded_mod, aircraft_mod) =>
      (true, "Aircraft has excluded modification: "
               +:+ ModificationConstraint.mod_id excluded_mod
               +:+ " (matched: " +:+ aircraft_mod +:+ ")")
  | None =>
      match excluded_if_modifications (rules ad) with
      | _ :: _ => (false, "Aircraft does not have any excluded modifications")
      | [] => (false, "No excluded modifications specified")
      end
  end.

Definition check_required_modifications (self : t)
    (aircraft : AircraftConfiguration.t) (ad : AirworthinessDirective.t)
  : bool * string :=
  match required_modifications (rules ad) with
  | [] => (true, "No required modifications specified")
  | _ :: _ =>
      match first_hit (required_modifications (rules ad)) (mods_of aircraft) with
      | Some (required_mod, _) =>
          (true, "Aircraft has required modification: "
                   +:+ ModificationConstraint.mod_id required_mod)
      | None => (false, "Aircraft does not have any of the required modifications")
      end
  end.

(** The [ComplianceResult(...)] built at each return of [evaluate]. *)
Definition result (aircraft : AircraftConfiguration.t)
    (ad : AirworthinessDirective.t) (is_affected : bool) (status : string)
    (reasons : list string) : ComplianceResult.t :=
  ComplianceResult.Build (AirworthinessDirective.ad_id ad) (model_of aircraft)
    (msn_of aircraft) is_affected status (Py.join "; " reasons).

Definition evaluate (self : t) (aircraft : AircraftConfiguration.t)
    (ad : AirworthinessDirective.t) : ComplianceResult.t :=
  let reasons : list string := [] in
  (* Step 1: Check aircraft model *)
  let '(model_matches, model_reason) := check_aircraft_model self aircraft ad in
  let reasons := (reasons ++ ["Model check: " +:+ model_reason])%list in
  if negb model_matches then result aircraft ad false "not applicable" reasons
  else
  (* Step 2: Check MSN constraints *)
  let '(msn_matches, msn_reason) := check_msn_constraints self aircraft ad in
  let reasons := (reasons ++ ["MSN check: " +:+ msn_reason])%list in
  if negb msn_matches then result aircraft ad false "not applicable" reasons
  else
  (* Step 3: Check excluded modifications *)
  let '(is_excluded, excluded_reason) :=
    check_excluded_modifications self aircraft ad in
  let reasons := (reasons ++ ["Excluded mods check: " +:+ excluded_reason])%list in
  if is_excluded then result aircraft ad false "no" reasons
  else
  (* Step 4: Check required modifications *)
  let '(has_required, required_reason) :=
    check_required_modifications self aircraft ad in
  let reasons := (reasons ++ ["Required mods check: " +:+ required_reason])%list in
  if negb has_required then result aircraft ad false "no" reasons
  else
  (* All checks passed - aircraft IS affected by this AD *)
  result aircraft ad true "yes" reasons.

(** The loop of [evaluate_all]: one result appended per loaded AD. *)
Fixpoint evaluate_all_loop (self : t) (aircraft : AircraftConfiguration.t)
    (todo : list AirworthinessDirective.t) (results : list ComplianceResult.t)
  : list ComplianceResult.t :=
  match todo with
  | [] => results
  | ad :: rest =>
      evaluate_all_loop self aircraft rest (results ++ [evaluate self aircraft ad])%list
  end.

Definition evaluate_all (self : t) (aircraft : AircraftConfiguration.t)
  : list ComplianceResult.t :=
  evaluate_all_loop self aircraft (ads self) [].

(** [f"{aircraft.aircraft_model}-{aircraft.msn}"] *)
Definition aircraft_id (aircraft : AircraftConfiguration.t) : string :=
  model_of aircraft +:+ "-" +:+ Py.str_int (msn_of aircraft).

(** The loop of [evaluate_fleet]: [fleet_results[aircraft_id] = ...] for
    each aircraft in turn; a later aircraft with the same identifier
    overwrites the entry of an earlier one. *)
Fixpoint evaluate_fleet_loop (self : t) (fleet : list AircraftConfiguration.t)
    (fleet_results : gmap string (list ComplianceResult.t))
  : gmap string (list ComplianceResult.t) :=
  match fleet with
  | [] => fleet_results
  | aircraft :: rest =>
      evaluate_fleet_loop self rest
        (<[aircraft_id aircraft := evaluate_all self aircraft]> fleet_results)
  end.

Definition evaluate_fleet (self : t) (fleet : list AircraftConfiguration.t)
  : gmap string (list ComplianceResult.t) :=
  evaluate_fleet_loop self fleet ∅.

End ADComplianceEngine.

(** ** ad_compliance_engine.py: the fleet mapping in insertion order, and
    [format_results_table] *)

Module Table.

Import ADComplianceEngine.

(** [d[key] = value] on the items of a dict, kept in insertion order: a key
    already present keeps its place and takes the new value, a new key goes
    last. *)
Fixpoint dict_setitem {V} (items : list (string * V)) (key : string) (value : V)
  : list (string * V) :=
  match items with
  | [] => [(key, value)]
  | (k, v) :: rest =>
      if String.eqb k key then (k, value) :: rest
      else (k, v) :: dict_setitem rest key value
  end.

(** The loop of [evaluate_fleet] on the items of [fleet_results]. *)
Fixpoint evaluate_fleet_items_loop (self : ADComplianceEngine.t)
    (fleet : list AircraftConfiguration.t)
    (fleet_results : list (string * list ComplianceResult.t))
  : list (string * list ComplianceResult.t) :=
  match fleet with
  | [] => fleet_results
  | aircraft :: rest =>
      evaluate_fleet_items_loop self rest
        (dict_setitem fleet_results (aircraft_id aircraft) (evaluate_all self aircraft))
  end.

(** [evaluate_fleet(fleet).items()]: the mapping [evaluate_fleet] returns,
    as the sequence of its entries in insertion order. *)
Definition evaluate_fleet_items (self : ADComplianceEngine.t)
    (fleet : list AircraftConfiguration.t) : list (string * list ComplianceResult.t) :=
  evaluate_fleet_items_loop self fleet [].

(** [c * n] for a one-character string [c]. *)
Fixpoint repeat_char (c : ascii) (n : nat) : string :=
  match n with
  | O => EmptyString
  | S n' => String c (repeat_char c n')
  end.

(** The format [{s:<{width}}] of an f-string: [s] padded with spaces on the
    right up to [width], and unchanged when it is already that long. *)
Definition ljust (s : string) (width : nat) : string :=
  s +:+ repeat_char " " (width - String.length s).

(** The line feed that joins the lines of the table. *)
Definition newline : string := String (ascii_of_nat 10) EmptyString.

(** The loop [for i, cell in enumerate(row): col_widths[i] = max(...)], from
    index [i] on; [None] when an index is out of range ([IndexError]). *)
Fixpoint widen (col_widths : list nat) (i : nat) (row : list string) : option (list nat) :=
  match row with
  | [] => Some col_widths
  | cell :: rest =>
      match col_widths !! i with
      | None => None
      | Some w => widen (<[i := Nat.max w (String.length cell)]> col_widths) (S i) rest
      end
  end.

(** The row built for one entry of [results]; [None] when its list of
    results is empty ([compliance_results[0]] raises [IndexError]). A
    [ComplianceResult] has no attribute [modifications], so the text of the
    third cell stays "None". *)
Definition row_of (compliance_results : list ComplianceResult.t) : option (list string) :=
  match compliance_results with
  | [] => None
  | result :: _ =>
      let mods_str := "None" in
      Some ([ComplianceResult.aircraft_model result;
             Py.str_int (ComplianceResult.msn result);
             mods_str]
            ++ map ComplianceResult.status compliance_results)%list
  end.

(** The loop over [results.items()]: the rows so far and the column widths
    so far. *)
Fixpoint build_rows (results : list (string * list ComplianceResult.t))
    (rows : list (list string)) (col_widths : list nat)
  : option (list (list string) * list nat) :=
  match results with
  | [] => Some (rows, col_widths)
  | (aircraft_id, compliance_results) :: rest =>
      row ← row_of compliance_results;
      col_widths ← widen col_widths 0 row;
      build_rows rest (rows ++ [row])%list col_widths
  end.

(** The cells [f" {cell:<{col_widths[i]}} "] of one line, from index [i]
    on. *)
Fixpoint cells (col_widths : list nat) (i : nat) (row : list string)
  : option (list string) :=
  match row with
  | [] => Some []
  | cell :: rest =>
      w ← col_widths !! i;
      formatted ← cells col_widths (S i) rest;
      Some ((" " +:+ ljust cell w +:+ " ") :: formatted)
  end.

(** One line of the table between bars. *)
Definition line (col_widths : list nat) (row : list string) : option string :=
  formatted ← cells col_widths 0 row;
  Some ("|" +:+ Py.join "|" formatted +:+ "|").

(** The list [table] just before it is joined. *)
Definition table_lines (results : list (string * list ComplianceResult.t))
  : option (list string) :=
  let ad_ids :=
    match results with
    | [] => []
    | (_, first_results) :: _ => map ComplianceResult.ad_id first_results
    end in
  let header := (["Aircraft Model"; "MSN"; "Modifications"] ++ ad_ids)%list in
  let col_widths := map String.length header in
  '(rows, col_widths) ← build_rows results [] col_widths;
  let separator :=
    "+" +:+ Py.join "+" (map (fun w => repeat_char "-" (w + 2)) col_widths) +:+ "+" in
  header_row ← line col_widths header;
  row_lines ← mapM (line col_widths) rows;
  Some ([separator; header_row; separator] ++ row_lines ++ [separator])%list.

(** [format_results_table(results)] on the items of [results]; [None] when
    the call raises [IndexError], the one exception it can raise. *)
Definition format_results_table (results : list (string * list ComplianceResult.t))
  : option string :=
  Py.join newline <$> table_lines results.

End Table.

(** * Vocabulary of the properties *)

Import ADComplianceEngine.

(** [needle] occurs in [hay]: some text before it and some after make up
    [hay]. *)
Definition occurs_in (needle hay : string) : Prop :=
  exists before after, hay = before +:+ needle +:+ after.

(** Some constraint of [cs] matches some modification of [mods]. *)
Definition some_match (cs : list ModificationConstraint.t) (mods : list string) : Prop :=
  exists c m, In c cs /\ In m mods /\ ModificationConstraint.matches c m = true.

(** The directive with its [required_modifications] replaced. *)
Definition with_required (ad : AirworthinessDirective.t)
    (required : list ModificationConstraint.t) : AirworthinessDirective.t :=
  let r := AirworthinessDirective.applicability_rules ad in
  AirworthinessDirective.Build
    (AirworthinessDirective.ad_id ad)
    (AirworthinessDirective.issuing_authority ad)
    (AirworthinessDirective.title ad)
    (AirworthinessDirective.effective_date ad)
    (ApplicabilityRules.Build
       (ApplicabilityRules.aircraft_models r)
       (ApplicabilityRules.msn_constraints r)
       (ApplicabilityRules.excluded_if_modifications r)
       required
       (ApplicabilityRules.additional_constraints r))
    (AirworthinessDirective.summary ad).

(** The four stages of [evaluate], in the order the code runs them. *)
Inductive stage : Type := ModelStage | SerialStage | ExclusionStage | RequirementStage.

Definition all_stages : list stage :=
  [ModelStage; SerialStage; ExclusionStage; RequirementStage].

(** The labelled sentence a stage contributes: its label and the text its
    check returns. *)
Definition sentence (self : ADComplianceEngine.t) (aircraft : AircraftConfiguration.t)
    (ad : AirworthinessDirective.t) (s : stage) : string :=
  match s with
  | ModelStage => "Model check: " +:+ snd (check_aircraft_model self aircraft ad)
  | SerialStage => "MSN check: " +:+ snd (check_msn_constraints self aircraft ad)
  | ExclusionStage =>
      "Excluded mods check: " +:+ snd (check_excluded_modifications self aircraft ad)
  | RequirementStage =>
      "Required mods check: " +:+ snd (check_required_modifications self aircraft ad)
  end.

(** How many stages run: one when the model check fails, two when the serial
    check fails, three when the aircraft is excluded, else all four. *)
Definition stages_run (self : ADComplianceEngine.t) (aircraft : AircraftConfiguration.t)
    (ad : AirworthinessDirective.t) : nat :=
  if negb (fst (check_aircraft_model self aircraft ad)) then 1%nat
  else if negb (fst (check_msn_constraints self aircraft ad)) then 2%nat
  else if fst (check_excluded_modifications self aircraft ad) then 3%nat
  else 4%nat.

(** The normalization the specification gives every operand of the
    modification match: surrounding whitespace trimmed, case folded. *)
Definition normalize (s : string) : string := Py.strip (Py.lower s).

(** The modification match as the specification words it, with the
    identifier and the aliases normalized like the text. *)
Definition matches_as_specified (c : ModificationConstraint.t) (text : string) : Prop :=
  occurs_in (normalize (ModificationConstraint.mod_id c)) (normalize text)
  \/ exists alias,
       In alias (ModificationConstraint.aliases c)
       /\ occurs_in (normalize alias) (normalize text).

(** The identifiers of the directives an engine has loaded. *)
Definition loaded_ids (self : ADComplianceEngine.t) : list string :=
  map AirworthinessDirective.ad_id (ads self).

(** The identity of an aircraft: its model and serial number. *)
Definition identity (aircraft : AircraftConfiguration.t) : string * Z :=
  (AircraftConfiguration.aircraft_model aircraft, AircraftConfiguration.msn aircraft).

(** No minus sign occurs in a string. *)
Fixpoint dash_free (s : string) : bool :=
  match s with
  | EmptyString => true
  | String c t => negb (Ascii.eqb c "-") && dash_free t
  end.

(** An [int] validation that takes integers only, for the examples (none of
    which holds a number of another form). *)
Definition int_exact (v : Py.json) : option Z :=
  match v with
  | Py.JInt n => Some n
  | _ => None
  end.

(** A definition source: the first directive is well formed, the second has
    no [aircraft_models]. *)
Definition rules_missing_models : Py.json :=
  Py.JList
    [Py.JDict
       [("ad_id", Py.JStr "FAA-2025-23-53");
        ("issuing_authority", Py.JStr "FAA");
        ("applicability_rules",
         Py.JDict [("aircraft_models", Py.JList [Py.JStr "MD-11"; Py.JStr "MD-11F"])])];
     Py.JDict
       [("ad_id", Py.JStr "EASA-2025-0254");
        ("issuing_authority", Py.JStr "EASA");
        ("applicability_rules", Py.JDict [("required_modifications", Py.JList [])])]].

(** A definition source: the first directive is well formed, the second has
    a serial constraint of an unknown kind. *)
Definition rules_unknown_kind : Py.json :=
  Py.JList
    [Py.JDict
       [("ad_id", Py.JStr "FAA-2025-23-53");
        ("issuing_authority", Py.JStr "FAA");
        ("applicability_rules",
         Py.JDict [("aircraft_models", Py.JList [Py.JStr "MD-11"; Py.JStr "MD-11F"])])];
     Py.JDict
       [("ad_id", Py.JStr "EASA-2025-0254");
        ("issuing_authority", Py.JStr "EASA");
        ("applicability_rules",
         Py.JDict [("aircraft_models", Py.JList [Py.JStr "A320-214"]);
                   ("msn_constraints",
                    Py.JDict [("type", Py.JStr "between"); ("min_msn", Py.JInt 1)])])]].

(** A file system with these two sources and nothing else. *)
Definition example_files (path : string) : Py.py_result Py.json :=
  if String.eqb path "missing_models.json" then Py.Return rules_missing_models
  else if String.eqb path "unknown_kind.json" then Py.Return rules_unknown_kind
  else Py.Raise Py.OSError.

(** The directive both sources define first. *)
Definition first_directive : AirworthinessDirective.t :=
  AirworthinessDirective.Build "FAA-2025-23-53" "FAA" None None
    (ApplicabilityRules.Build ["MD-11"; "MD-11F"] None [] [] []) None.

(** The serial stage passes: no constraint, or one the serial matches. *)
Definition serial_passes (aircraft : AircraftConfiguration.t)
    (ad : AirworthinessDirective.t) : Prop :=
  match ApplicabilityRules.msn_constraints (AirworthinessDirective.applicability_rules ad) with
  | None => True
  | Some c => MSNConstraint.matches c (AircraftConfiguration.msn aircraft) = true
  end.

(** The aircraft with its [modifications] replaced. *)
Definition with_modifications (aircraft : AircraftConfiguration.t)
    (mods : list string) : AircraftConfiguration.t :=
  AircraftConfiguration.Build
    (AircraftConfiguration.aircraft_model aircraft)
    (AircraftConfiguration.msn aircraft)
    mods
    (AircraftConfiguration.additional_info aircraft).

(** The directive with both lists of modification constraints replaced. *)
Definition with_constraints (ad : AirworthinessDirective.t)
    (excluded required : list ModificationConstraint.t) : AirworthinessDirective.t :=
  let r := AirworthinessDirective.applicability_rules ad in
  AirworthinessDirective.Build
    (AirworthinessDirective.ad_id ad)
    (AirworthinessDirective.issuing_authority ad)
    (AirworthinessDirective.title ad)
    (AirworthinessDirective.effective_date ad)
    (ApplicabilityRules.Build
       (ApplicabilityRules.aircraft_models r)
       (ApplicabilityRules.msn_constraints r)
       excluded
       required
       (ApplicabilityRules.additional_constraints r))
    (AirworthinessDirective.summary ad).

(** Every character of a string is whitespace. *)
Fixpoint all_space (s : string) : bool :=
  match s with
  | EmptyString => true
  | String c t => Py.is_space c && all_space t
  end.

(** The value of each member of [MSNConstraintType]. *)
Definition MSNConstraintType_value (k : MSNConstraintType) : string :=
  match k with
  | RANGE => "range"
  | LIST => "list"
  | ALL => "all"
  end.

(** How an optional integer field of a document relates to the bound built
    from it: an absent key or a null gives no bound, another value gives the
    integer it validates to. *)
Definition bound_from (int_field : Py.json -> option Z)
    (fields : list (string * Py.json)) (name : string) (bound : option Z) : Prop :=
  match bound with
  | None => Py.dict_get fields name = None \/ Py.dict_get fields name = Some Py.JNull
  | Some n => exists v, Py.dict_get fields name = Some v /\ int_field v = Some n
  end.

(** The results listed under the first entry of a mapping (none when the
    mapping is empty): the list the table takes its directive columns
    from. *)
Definition first_results (results : list (string * list ComplianceResult.t))
  : list ComplianceResult.t :=
  match results with
  | [] => []
  | (_, rs) :: _ => rs
  end.

(** The entry [evaluate_fleet] files for one aircraft. *)
Definition fleet_entry (self : ADComplianceEngine.t) (aircraft : AircraftConfiguration.t)
  : string * list ComplianceResult.t :=
  (aircraft_id aircraft, evaluate_all self aircraft).

(** The length of a line of the table with the given column widths: a bar,
    then for each column a space, the cell, a space and a bar. *)
Definition table_width (col_widths : list nat) : nat :=
  S (list_sum (map (fun w => w + 3)%nat col_widths)).

(** Every cell of a row, from column [i] on, is at most as long as its
    column is wide. *)
Definition fits_from (col_widths : list nat) (i : nat) (row : list string) : Prop :=
  forall j cell, row !! j = Some cell ->
    exists w, col_widths !! (i + j)%nat = Some w /\ (String.length cell <= w)%nat.

(** The columns are as many as before and none is narrower. *)
Definition grows (before after : list nat) : Prop :=
  length after = length before
  /\ forall j w, before !! j = Some w -> exists w', after !! j = Some w' /\ (w <= w')%nat.

(** * Properties *)

(** ** Substring containment *)

Lemma app_String (c : ascii) (s t : string) :
  String c s +:+ t = String c (s +:+ t).
Proof. reflexivity. Qed.

Lemma prefix_true_iff (p s : string) :
  String.prefix p s = true <-> exists after, s = p +:+ after.
Proof.
  revert s; induction p as [|c p IH]; intros s.
  - split; [intros _; exists s; reflexivity | destruct s; reflexivity].
  - destruct s as [|c' s]; simpl; [split; [discriminate | intros [? [=]]]|].
    destruct (ascii_dec c c') as [->|Hne].
    + rewrite IH. split; intros [after H]; exists after.
      * simpl. now rewrite H.
      * simpl in H. now injection H.
    + split; [discriminate | intros [after H]; rewrite app_String in H; congruence].
Qed.

Lemma contains_true_iff (needle hay : string) :
  Py.contains needle hay = true <-> occurs_in needle hay.
Proof.
  induction hay as [|c hay IH]; cbn [Py.contains].
  - rewrite orb_false_r, prefix_true_iff. split.
    + intros [after H]. exists "", after. exact H.
    + intros [[|? ?] [after H]]; [exists after; exact H | discriminate].
  - rewrite orb_true_iff, prefix_true_iff, IH. split.
    + intros [[after H] | [before [after H]]].
      * exists "", after. exact H.
      * exists (String c before), after. now rewrite app_String, H.
    + intros [[|c' before] [after H]].
      * left. exists after. exact H.
      * right. exists before, after. rewrite app_String in H. congruence.
Qed.

Lemma contains_empty (hay : string) : Py.contains "" hay = true.
Proof. destruct hay; reflexivity. Qed.

(** ** Membership tests *)

Lemma str_in_true_iff (x : string) (xs : list string) :
  Py.str_in x xs = true <-> In x xs.
Proof.
  unfold Py.str_in. rewrite existsb_exists. split.
  - intros [y [Hy Heq]]. apply String.eqb_eq in Heq. now subst.
  - intros H. exists x. split; [exact H | apply String.eqb_refl].
Qed.

Lemma int_in_true_iff (n : Z) (ns : list Z) :
  Py.int_in n ns = true <-> In n ns.
Proof.
  unfold Py.int_in. rewrite existsb_exists. split.
  - intros [y [Hy Heq]]. apply Z.eqb_eq in Heq. now subst.
  - intros H. exists n. split; [exact H | apply Z.eqb_refl].
Qed.

(** ** The nested matching loops *)

Lemma first_match_Some c mods aircraft_mod :
  first_match c mods = Some aircraft_mod ->
  In aircraft_mod mods /\ ModificationConstraint.matches c aircraft_mod = true.
Proof.
  induction mods as [|m mods IH]; simpl; [discriminate|].
  destruct (ModificationConstraint.matches c m) eqn:Hm.
  - intros [= <-]. auto.
  - intros H. destruct (IH H). auto.
Qed.

Lemma first_match_None c mods :
  first_match c mods = None <->
  forall m, In m mods -> ModificationConstraint.matches c m = false.
Proof.
  induction mods as [|m mods IH]; simpl.
  - split; [intros _ ? [] | reflexivity].
  - destruct (ModificationConstraint.matches c m) eqn:Hm.
    + split; [discriminate | intros H; rewrite (H m) in Hm; auto; discriminate].
    + rewrite IH. split; [intros H x [<-|Hx]; auto | auto].
Qed.

Lemma first_hit_Some cs mods c aircraft_mod :
  first_hit cs mods = Some (c, aircraft_mod) ->
  In c cs /\ In aircraft_mod mods /\ ModificationConstraint.matches c aircraft_mod = true.
Proof.
  induction cs as [|c' cs IH]; simpl; [discriminate|].
  destruct (first_match c' mods) as [m|] eqn:Hm.
  - intros [= <- <-]. apply first_match_Some in Hm. tauto.
  - intros H. destruct (IH H) as (? & ? & ?). auto.
Qed.

Lemma first_hit_None cs mods :
  first_hit cs mods = None <->
  forall c m, In c cs -> In m mods -> ModificationConstraint.matches c m = false.
Proof.
  induction cs as [|c' cs IH]; simpl.
  - split; [intros _ ? ? [] | reflexivity].
  - destruct (first_match c' mods) as [m|] eqn:Hm.
    + apply first_match_Some in Hm as [Hin Hmatch].
      split; [discriminate | intros H; rewrite (H c' m) in Hmatch; auto; discriminate].
    + rewrite IH. rewrite first_match_None in Hm.
      split; [intros H c m [<-|Hc] Hmod; auto | auto].
Qed.

Lemma first_hit_is_Some cs mods :
  is_Some (first_hit cs mods) <-> some_match cs mods.
Proof.
  split.
  - intros [[c m] H]. apply first_hit_Some in H. exists c, m. exact H.
  - intros (c & m & Hc & Hm & Hmatch).
    destruct (first_hit cs mods) eqn:Hhit; [eauto|].
    rewrite first_hit_None in Hhit. rewrite (Hhit c m) in Hmatch; auto; discriminate.
Qed.

(** ** The outcome of each stage *)

Lemma check_aircraft_model_passes self aircraft ad :
  fst (check_aircraft_model self aircraft ad) = true <->
  In (AircraftConfiguration.aircraft_model aircraft)
     (ApplicabilityRules.aircraft_models (AirworthinessDirective.applicability_rules ad)).
Proof.
  unfold check_aircraft_model. rewrite <- str_in_true_iff.
  destruct (Py.str_in _ _); simpl; split; auto.
Qed.

Lemma check_excluded_modifications_excludes self aircraft ad :
  fst (check_excluded_modifications self aircraft ad) = true <->
  some_match
    (ApplicabilityRules.excluded_if_modifications (AirworthinessDirective.applicability_rules ad))
    (AircraftConfiguration.modifications aircraft).
Proof.
  unfold check_excluded_modifications. rewrite <- first_hit_is_Some.
  destruct (first_hit _ _) as [[c m]|]; simpl.
  - split; eauto.
  - destruct (ApplicabilityRules.excluded_if_modifications _); simpl;
      (split; [discriminate | intros [? [=]]]).
Qed.

Lemma check_required_modifications_passes self aircraft ad :
  fst (check_required_modifications self aircraft ad) = true <->
  ApplicabilityRules.required_modifications (AirworthinessDirective.applicability_rules ad) = []
  \/ some_match
       (ApplicabilityRules.required_modifications (AirworthinessDirective.applicability_rules ad))
       (AircraftConfiguration.modifications aircraft).
Proof.
  unfold check_required_modifications. rewrite <- first_hit_is_Some.
  destruct (ApplicabilityRules.required_modifications _) as [|c cs] eqn:Hreq.
  - simpl. split; auto.
  - destruct (first_hit (c :: cs) _) as [[c' m]|]; cbn [fst].
    + split; [intros _; right; eauto | reflexivity].
    + split; [discriminate | intros [[=] | [? [=]]]].
Qed.

Lemma check_msn_constraints_passes self aircraft ad :
  fst (check_msn_constraints self aircraft ad) = true <->
  match ApplicabilityRules.msn_constraints (AirworthinessDirective.applicability_rules ad) with
  | None => True
  | Some c => MSNConstraint.matches c (AircraftConfiguration.msn aircraft) = true
  end.
Proof.
  unfold check_msn_constraints.
  destruct (ApplicabilityRules.msn_constraints _) as [c|]; [|simpl; tauto].
  destruct (MSNConstraint.matches c _); simpl; split; auto.
Qed.

(** ** The verdict *)

(** C1. [evaluate] returns, for every aircraft and directive, a result whose
    status is one of "yes", "no" and "not applicable" (three different
    strings), and whose [is_affected] is true exactly when the status is
    "yes". *)
Theorem evaluate_status_and_affected self aircraft ad :
  let r := evaluate self aircraft ad in
  (ComplianceResult.status r = "yes"
   \/ ComplianceResult.status r = "no"
   \/ ComplianceResult.status r = "not applicable")
  /\ (ComplianceResult.is_affected r = true <-> ComplianceResult.status r = "yes").
Proof.
  unfold evaluate.
  destruct (check_aircraft_model self aircraft ad) as [[] ?];
    destruct (check_msn_constraints self aircraft ad) as [[] ?];
    destruct (check_excluded_modifications self aircraft ad) as [[] ?];
    destruct (check_required_modifications self aircraft ad) as [[] ?];
    simpl; (split; [tauto | split; (reflexivity || discriminate)]).
Qed.

(** C4. An aircraft whose model is not in the directive's [aircraft_models]
    gets the result fixed by the model stage alone: status "not applicable",
    not affected, and a reason that holds the model sentence only. Nothing of
    the serial constraint, the exclusions or the requirements enters it. *)
Theorem evaluate_model_mismatch self aircraft ad :
  ~ In (AircraftConfiguration.aircraft_model aircraft)
       (ApplicabilityRules.aircraft_models (AirworthinessDirective.applicability_rules ad)) ->
  evaluate self aircraft ad =
  ComplianceResult.Build
    (AirworthinessDirective.ad_id ad)
    (AircraftConfiguration.aircraft_model aircraft)
    (AircraftConfiguration.msn aircraft)
    false
    "not applicable"
    ("Model check: Aircraft model '" +:+ AircraftConfiguration.aircraft_model aircraft
       +:+ "' is not in the affected models list").
Proof.
  intros Hnot. rewrite <- str_in_true_iff in Hnot.
  unfold evaluate, check_aircraft_model.
  destruct (Py.str_in _ _); [contradiction Hnot; reflexivity | reflexivity].
Qed.

Lemma evaluate_model_mismatch_witness :
  evaluate (Build [])
    (AircraftConfiguration.Build "Boeing 737-800" 30123 ["mod 24591 (production)"] [])
    (AirworthinessDirective.Build "EASA-2025-0254" "EASA" None None
       (ApplicabilityRules.Build ["A320-214"; "A320-232"]
          (Some (MSNConstraint.Build RANGE (Some 1) (Some 9) None))
          [ModificationConstraint.Build "mod 24591" [] None]
          [ModificationConstraint.Build "mod 24977" [] None] [])
       None)
  = ComplianceResult.Build "EASA-2025-0254" "Boeing 737-800" 30123 false "not applicable"
      "Model check: Aircraft model 'Boeing 737-800' is not in the affected models list".
Proof.
  apply (evaluate_model_mismatch (Build [])
           (AircraftConfiguration.Build "Boeing 737-800" 30123 ["mod 24591 (production)"] [])).
  simpl. intros [H|[H|[]]]; discriminate H.
Defined.

(** C5. [MSNConstraint.matches]: ALL matches every serial; RANGE matches
    exactly the serials within the bounds that are present, both inclusive;
    LIST matches exactly the members of the list (none when the list is
    absent). With bounds 100 and 200 the serials 99 and 201 do not match and
    100, 150 and 200 do. *)
Theorem msn_constraint_matches_spec :
  (forall lo hi values msn,
     MSNConstraint.matches (MSNConstraint.Build ALL lo hi values) msn = true)
  /\ (forall lo hi values msn,
        MSNConstraint.matches (MSNConstraint.Build RANGE lo hi values) msn = true <->
        match lo with None => True | Some m => m <= msn end
        /\ match hi with None => True | Some m => msn <= m end)
  /\ (forall lo hi values msn,
        MSNConstraint.matches (MSNConstraint.Build LIST lo hi values) msn = true <->
        In msn (default [] values))
  /\ (let c := MSNConstraint.Build RANGE (Some 100) (Some 200) None in
      MSNConstraint.matches c 99 = false
      /\ MSNConstraint.matches c 201 = false
      /\ MSNConstraint.matches c 100 = true
      /\ MSNConstraint.matches c 150 = true
      /\ MSNConstraint.matches c 200 = true).
Proof.
  split; [reflexivity|]. split; [|split].
  - intros lo hi values msn. unfold MSNConstraint.matches. simpl.
    destruct lo as [lo|], hi as [hi|];
      repeat match goal with
             | |- context [(?x <? ?y)] => destruct (Z.ltb_spec x y)
             | |- context [(?x >? ?y)] => rewrite (Z.gtb_ltb x y)
             end; split; intros; try discriminate; try reflexivity; lia.
  - intros lo hi values msn. unfold MSNConstraint.matches. simpl.
    rewrite int_in_true_iff. unfold MSNConstraint.msn_list_or_empty. simpl.
    destruct values as [[|]|]; reflexivity.
  - repeat split.
Qed.

(** C6. Exclusion dominates requirement: when the model and serial stages
    pass and some excluded constraint matches some modification of the
    aircraft, the status is "no" and the aircraft is not affected; the reason
    ends with the exclusion sentence, and the result is the same whatever the
    directive's [required_modifications] are. *)
Theorem evaluate_exclusion_dominates self aircraft ad :
  In (AircraftConfiguration.aircraft_model aircraft)
     (ApplicabilityRules.aircraft_models (AirworthinessDirective.applicability_rules ad)) ->
  match ApplicabilityRules.msn_constraints (AirworthinessDirective.applicability_rules ad) with
  | None => True
  | Some c => MSNConstraint.matches c (AircraftConfiguration.msn aircraft) = true
  end ->
  some_match
    (ApplicabilityRules.excluded_if_modifications (AirworthinessDirective.applicability_rules ad))
    (AircraftConfiguration.modifications aircraft) ->
  let r := evaluate self aircraft ad in
  ComplianceResult.status r = "no"
  /\ ComplianceResult.is_affected r = false
  /\ ComplianceResult.reason r =
       Py.join "; " (map (sentence self aircraft ad) [ModelStage; SerialStage; ExclusionStage])
  /\ forall required, evaluate self aircraft (with_required ad required) = r.
Proof.
  intros Hmodel Hserial Hexcl.
  apply check_aircraft_model_passes with (self := self) in Hmodel.
  apply check_msn_constraints_passes with (self := self) in Hserial.
  apply check_excluded_modifications_excludes with (self := self) in Hexcl.
  assert (Hgen : forall ad', 
             check_aircraft_model self aircraft ad' = check_aircraft_model self aircraft ad ->
             check_msn_constraints self aircraft ad' = check_msn_constraints self aircraft ad ->
             check_excluded_modifications self aircraft ad'
             = check_excluded_modifications self aircraft ad ->
             AirworthinessDirective.ad_id ad' = AirworthinessDirective.ad_id ad ->
             evaluate self aircraft ad' =
             result aircraft ad false "no"
               (map (sentence self aircraft ad) [ModelStage; SerialStage; ExclusionStage])).
  { intros ad' H1 H2 H3 Hid. unfold evaluate. rewrite H1, H2, H3.
    cbn [map sentence].
    destruct (check_aircraft_model self aircraft ad) as [b1 r1].
    destruct (check_msn_constraints self aircraft ad) as [b2 r2].
    destruct (check_excluded_modifications self aircraft ad) as [b3 r3].
    simpl in Hmodel, Hserial, Hexcl. subst b1 b2 b3. simpl.
    unfold result. now rewrite Hid. }
  simpl. rewrite (Hgen ad) by reflexivity.
  repeat split. intros required. now apply Hgen.
Qed.

Lemma evaluate_exclusion_dominates_witness :
  let aircraft :=
    AircraftConfiguration.Build "A320-214" 7456
      ["SB A320-57-1089 Rev 04"; "mod 24591 (production)"] [] in
  let ad :=
    AirworthinessDirective.Build "EASA-2025-0254" "EASA" None None
      (ApplicabilityRules.Build ["A320-214"]
         (Some (MSNConstraint.Build RANGE (Some 1) None None))
         [ModificationConstraint.Build "SB A320-57-1089" [] None]
         [ModificationConstraint.Build "mod 24591" [] None] [])
      None in
  let r := evaluate (Build []) aircraft ad in
  ComplianceResult.status r = "no"
  /\ ComplianceResult.is_affected r = false
  /\ ComplianceResult.reason r =
       Py.join "; " (map (sentence (Build []) aircraft ad)
                       [ModelStage; SerialStage; ExclusionStage])
  /\ forall required, evaluate (Build []) aircraft (with_required ad required) = r.
Proof.
  intros aircraft ad.
  apply (evaluate_exclusion_dominates (Build []) aircraft ad).
  - simpl. left. reflexivity.
  - reflexivity.
  - exists (ModificationConstraint.Build "SB A320-57-1089" [] None), "SB A320-57-1089 Rev 04".
    split; [left; reflexivity|]. split; [left; reflexivity|]. reflexivity.
Defined.

(** C9. The reason of the result is the sentences of the stages that ran,
    joined by "; ": the stages that run are the first [stages_run] of model,
    serial, exclusion, requirement (at least one, at most four), each gives
    its labelled sentence whatever its outcome, and a stage after the one
    that ended the evaluation gives nothing. *)
Theorem evaluate_reason_trail self aircraft ad :
  ComplianceResult.reason (evaluate self aircraft ad) =
    Py.join "; " (map (sentence self aircraft ad)
                    (firstn (stages_run self aircraft ad) all_stages))
  /\ (1 <= stages_run self aircraft ad <= 4)%nat
  /\ (stages_run self aircraft ad = 1%nat <->
      fst (check_aircraft_model self aircraft ad) = false)
  /\ (stages_run self aircraft ad = 2%nat <->
      fst (check_aircraft_model self aircraft ad) = true
      /\ fst (check_msn_constraints self aircraft ad) = false)
  /\ (stages_run self aircraft ad = 3%nat <->
      fst (check_aircraft_model self aircraft ad) = true
      /\ fst (check_msn_constraints self aircraft ad) = true
      /\ fst (check_excluded_modifications self aircraft ad) = true).
Proof.
  unfold evaluate, stages_run, sentence, all_stages.
  destruct (check_aircraft_model self aircraft ad) as [[] r1];
    destruct (check_msn_constraints self aircraft ad) as [[] r2];
    destruct (check_excluded_modifications self aircraft ad) as [[] r3];
    destruct (check_required_modifications self aircraft ad) as [[] r4];
    simpl; repeat split; intros; try lia; try discriminate; 
    try match goal with H : _ /\ _ |- _ => destruct H as (? & ?) end;
    try match goal with H : _ /\ _ |- _ => destruct H as (? & ?) end;
    try discriminate.
Qed.

(** ** Modification constraints *)

Lemma any_alias_true_iff aliases mod_lower :
  ModificationConstraint.any_alias aliases mod_lower = true <->
  exists alias, In alias aliases /\ occurs_in (Py.lower alias) mod_lower.
Proof.
  induction aliases as [|a aliases IH]; simpl.
  - split; [discriminate | intros (? & [] & _)].
  - destruct (Py.contains (Py.lower a) mod_lower) eqn:Ha.
    + apply contains_true_iff in Ha. split; eauto.
    + rewrite IH. split.
      * intros (alias & Hin & Hocc). eauto.
      * intros (alias & [<-|Hin] & Hocc); [|eauto].
        apply contains_true_iff in Hocc. congruence.
Qed.

(** C3, as the code has it. [matches] trims and lower-cases the text, but
    only lower-cases the identifier and the aliases: it is true exactly when
    the lower-cased identifier, or some lower-cased alias, occurs in the
    trimmed, lower-cased text. *)
Theorem modification_matches_spec (c : ModificationConstraint.t) (text : string) :
  ModificationConstraint.matches c text = true <->
  occurs_in (Py.lower (ModificationConstraint.mod_id c)) (normalize text)
  \/ exists alias,
       In alias (ModificationConstraint.aliases c)
       /\ occurs_in (Py.lower alias) (normalize text).
Proof.
  unfold ModificationConstraint.matches, normalize.
  destruct (Py.contains (Py.lower (ModificationConstraint.mod_id c)) _) eqn:Hid.
  - apply contains_true_iff in Hid. split; auto.
  - rewrite any_alias_true_iff. split; [auto|].
    intros [Hocc|H]; [|exact H].
    apply contains_true_iff in Hocc. congruence.
Qed.

(** C3 fails as worded: an identifier with a trailing space is not trimmed by
    the code. The constraint "mod 24591 " does not match the text
    "mod 24591", though the normalized identifier occurs in the normalized
    text. *)
Lemma modification_matches_not_as_specified :
  let c := ModificationConstraint.Build "mod 24591 " [] None in
  ModificationConstraint.matches c "mod 24591" = false
  /\ matches_as_specified c "mod 24591".
Proof.
  split; [reflexivity|]. left. exists "", "". reflexivity.
Qed.

(** C10. An empty identifier is accepted when the constraint is built, and
    such a constraint matches every text; listed among the required
    modifications it satisfies the requirement check of every aircraft that
    has a modification, and listed among the excluded ones it excludes every
    such aircraft. *)
Theorem empty_mod_id_matches_everything self aircraft ad (c : ModificationConstraint.t) :
  ModificationConstraint.mod_id c = "" ->
  AircraftConfiguration.modifications aircraft <> [] ->
  ModificationConstraint.construct (Py.JDict [("mod_id", Py.JStr "")])
    = Py.Return (ModificationConstraint.Build "" [] None)
  /\ (forall text, ModificationConstraint.matches c text = true)
  /\ (In c (ApplicabilityRules.required_modifications
              (AirworthinessDirective.applicability_rules ad)) ->
      fst (check_required_modifications self aircraft ad) = true)
  /\ (In c (ApplicabilityRules.excluded_if_modifications
              (AirworthinessDirective.applicability_rules ad)) ->
      fst (check_excluded_modifications self aircraft ad) = true).
Proof.
  intros Hid Hmods.
  assert (Hall : forall text, ModificationConstraint.matches c text = true).
  { intros text. unfold ModificationConstraint.matches. rewrite Hid. simpl.
    now rewrite contains_empty. }
  destruct (AircraftConfiguration.modifications aircraft) as [|m mods] eqn:Hm;
    [contradiction|].
  split; [reflexivity|]. split; [exact Hall|]. split; intros Hin.
  - apply check_required_modifications_passes. right.
    exists c, m. rewrite Hm. split; [exact Hin|]. split; [now left | apply Hall].
  - apply check_excluded_modifications_excludes.
    exists c, m. rewrite Hm. split; [exact Hin|]. split; [now left | apply Hall].
Qed.

Lemma empty_mod_id_matches_everything_witness :
  let aircraft := AircraftConfiguration.Build "A320-214" 7456 ["SB A320-57-1089 Rev 04"] [] in
  let c := ModificationConstraint.Build "" [] None in
  let ad :=
    AirworthinessDirective.Build "EASA-2025-0254" "EASA" None None
      (ApplicabilityRules.Build ["A320-214"] None [c] [c] []) None in
  ModificationConstraint.construct (Py.JDict [("mod_id", Py.JStr "")]) = Py.Return c
  /\ (forall text, ModificationConstraint.matches c text = true)
  /\ fst (check_required_modifications (Build []) aircraft ad) = true
  /\ fst (check_excluded_modifications (Build []) aircraft ad) = true.
Proof.
  intros aircraft c ad.
  destruct (empty_mod_id_matches_everything (Build []) aircraft ad c)
    as (Hbuild & Hall & Hreq & Hexcl).
  - reflexivity.
  - discriminate.
  - split; [exact Hbuild|]. split; [exact Hall|].
    split; [apply Hreq | apply Hexcl]; left; reflexivity.
Defined.

(** ** Evaluation of one directive *)

(** C7, as the code has it. [evaluate] takes the directive record itself,
    not an identifier: it looks nothing up in the loaded collection (the
    result is the same for every engine), it returns a result for every
    directive, and the result carries that directive's identifier. *)
Theorem evaluate_takes_the_directive self aircraft ad :
  (forall other, evaluate other aircraft ad = evaluate self aircraft ad)
  /\ ComplianceResult.ad_id (evaluate self aircraft ad) = AirworthinessDirective.ad_id ad.
Proof.
  split; [reflexivity|].
  unfold evaluate.
  destruct (check_aircraft_model self aircraft ad) as [[] ?];
    destruct (check_msn_constraints self aircraft ad) as [[] ?];
    destruct (check_excluded_modifications self aircraft ad) as [[] ?];
    destruct (check_required_modifications self aircraft ad) as [[] ?];
    reflexivity.
Qed.

(** C7 fails as worded: a directive whose identifier the engine has not
    loaded is evaluated like any other. An engine with nothing loaded returns
    the verdict "yes" for such a directive, where an error was promised. *)
Lemma evaluate_unknown_directive_gives_result :
  let self := Build [] in
  let aircraft := AircraftConfiguration.Build "MD-11" 48123 [] [] in
  let ad :=
    AirworthinessDirective.Build "FAA-2025-23-53" "FAA" None None
      (ApplicabilityRules.Build ["MD-11"; "MD-11F"; "DC-10-30F"] None [] [] []) None in
  ~ In (AirworthinessDirective.ad_id ad) (loaded_ids self)
  /\ evaluate self aircraft ad =
     ComplianceResult.Build "FAA-2025-23-53" "MD-11" 48123 true "yes"
       ("Model check: Aircraft model 'MD-11' is in the affected models list; "
        +:+ "MSN check: No MSN constraints specified; "
        +:+ "Excluded mods check: No excluded modifications specified; "
        +:+ "Required mods check: No required modifications specified").
Proof.
  split; [intros [] | reflexivity].
Qed.

(** ** Fleet aggregation *)

Lemma evaluate_all_loop_app self aircraft todo results :
  evaluate_all_loop self aircraft todo results
  = (results ++ map (evaluate self aircraft) todo)%list.
Proof.
  revert results; induction todo as [|ad todo IH]; intros results; simpl.
  - now rewrite app_nil_r.
  - rewrite IH, <- app_assoc. reflexivity.
Qed.

Lemma evaluate_all_map self aircraft :
  evaluate_all self aircraft = map (evaluate self aircraft) (ads self).
Proof. unfold evaluate_all. now rewrite evaluate_all_loop_app. Qed.

(** The decimal rendering of a serial number that is not negative has no
    minus sign. *)
Lemma pretty_N_go_dash_free (x : N) (s : string) :
  dash_free s = true -> dash_free (pretty_N_go x s) = true.
Proof.
  revert s. induction (N.lt_wf_0 x) as [x _ IH]; intros s Hs.
  assert (x = 0 \/ 0 < x)%N as [->|Hpos] by lia.
  - now rewrite pretty_N_go_0.
  - rewrite pretty_N_go_step by exact Hpos. apply IH.
    + now apply N.div_lt.
    + simpl. rewrite Hs, andb_true_r.
      unfold pretty_N_char. now repeat case_match.
Qed.

Lemma str_int_dash_free (n : Z) : 0 <= n -> dash_free (Py.str_int n) = true.
Proof.
  intros Hn. destruct n as [|p|p]; [reflexivity| |lia].
  unfold Py.str_int, pretty, pretty_Z, pretty, pretty_positive, pretty, pretty_N.
  case_decide; [reflexivity|]. now apply pretty_N_go_dash_free.
Qed.

Lemma app_empty (s : string) : "" +:+ s = s.
Proof. reflexivity. Qed.

Lemma dash_free_app_dash (s t : string) : dash_free (s +:+ String "-" t) = false.
Proof.
  induction s as [|c s IH]; [reflexivity|].
  rewrite app_String. simpl. rewrite IH. apply andb_false_r.
Qed.

(** An identifier splits in one way only at a dash followed by a dash-free
    rest. *)
Lemma split_at_last_dash (m1 m2 d1 d2 : string) :
  dash_free d1 = true -> dash_free d2 = true ->
  m1 +:+ String "-" d1 = m2 +:+ String "-" d2 ->
  m1 = m2 /\ d1 = d2.
Proof.
  intros Hd1 Hd2. revert m2.
  induction m1 as [|c1 m1 IH]; intros [|c2 m2];
    rewrite ?app_String, ?app_empty; intros Heq.
  - injection Heq as ->. auto.
  - injection Heq as <- ->. rewrite dash_free_app_dash in Hd1. discriminate.
  - injection Heq as -> <-. rewrite dash_free_app_dash in Hd2. discriminate.
  - injection Heq as -> Heq. destruct (IH _ Heq) as [-> ->]. auto.
Qed.

Lemma aircraft_id_identity a b :
  0 <= AircraftConfiguration.msn a -> 0 <= AircraftConfiguration.msn b ->
  aircraft_id a = aircraft_id b -> identity a = identity b.
Proof.
  intros Ha Hb Heq. unfold aircraft_id in Heq.
  apply split_at_last_dash in Heq as [Hmodel Hmsn];
    [|now apply str_int_dash_free..].
  unfold Py.str_int in Hmsn. apply (inj pretty) in Hmsn.
  unfold identity. congruence.
Qed.

Lemma aircraft_ids_NoDup fleet :
  Forall (fun a => 0 <= AircraftConfiguration.msn a) fleet ->
  List.NoDup (map identity fleet) -> List.NoDup (map aircraft_id fleet).
Proof.
  induction fleet as [|x fleet IH]; simpl; intros Hpos Hnd; [constructor|].
  apply Forall_cons_1 in Hpos as [Hx Hpos].
  apply List.NoDup_cons_iff in Hnd as [Hnotin Hnd].
  apply List.NoDup_cons_iff. split; [|auto].
  intros Hin. apply Hnotin.
  apply in_map_iff in Hin as (a & Hid & Ha).
  apply in_map_iff. exists a. split; [|exact Ha].
  apply aircraft_id_identity; [|exact Hx|exact Hid].
  rewrite List.Forall_forall in Hpos. now apply Hpos.
Qed.

Lemma evaluate_fleet_loop_other self fleet
    (m : gmap string (list ComplianceResult.t)) (key : string) :
  ~ In key (map aircraft_id fleet) ->
  evaluate_fleet_loop self fleet m !! key = m !! key.
Proof.
  revert m; induction fleet as [|x fleet IH]; intros m Hnot; simpl; [reflexivity|].
  simpl in Hnot. rewrite IH by tauto. apply lookup_insert_ne. tauto.
Qed.

Lemma evaluate_fleet_loop_lookup self fleet
    (m : gmap string (list ComplianceResult.t)) aircraft :
  List.NoDup (map aircraft_id fleet) -> In aircraft fleet ->
  evaluate_fleet_loop self fleet m !! aircraft_id aircraft
  = Some (evaluate_all self aircraft).
Proof.
  revert m; induction fleet as [|x fleet IH]; intros m Hnd Hin; [destruct Hin|].
  simpl in Hnd. apply List.NoDup_cons_iff in Hnd as [Hnotin Hnd]. simpl.
  destruct Hin as [->|Hin]; [|now apply IH].
  rewrite evaluate_fleet_loop_other by exact Hnotin. apply lookup_insert_eq.
Qed.

Lemma evaluate_fleet_loop_keys self fleet
    (m : gmap string (list ComplianceResult.t)) (key : string) :
  is_Some (evaluate_fleet_loop self fleet m !! key) <->
  is_Some (m !! key) \/ In key (map aircraft_id fleet).
Proof.
  revert m; induction fleet as [|x fleet IH]; intros m; simpl; [tauto|].
  rewrite IH, lookup_insert_is_Some'. tauto.
Qed.

Lemma evaluate_fleet_loop_size self fleet (m : gmap string (list ComplianceResult.t)) :
  List.NoDup (map aircraft_id fleet) ->
  (forall a, In a fleet -> m !! aircraft_id a = None) ->
  size (evaluate_fleet_loop self fleet m) = (size m + length fleet)%nat.
Proof.
  revert m; induction fleet as [|x fleet IH]; intros m Hnd Hfresh; simpl; [lia|].
  simpl in Hnd. apply List.NoDup_cons_iff in Hnd as [Hnotin Hnd].
  rewrite IH; [|exact Hnd|].
  - rewrite map_size_insert_None by (apply Hfresh; now left). lia.
  - intros a Ha. rewrite lookup_insert_ne; [apply Hfresh; now right|].
    intros Heq. apply Hnotin. rewrite Heq. now apply in_map.
Qed.

(** C8, as the code has it. For a fleet of aircraft with serial numbers that
    are not negative and pairwise distinct (model, serial) pairs,
    [evaluate_fleet] returns a mapping with as many keys as aircraft, whose
    keys are the aircraft identifiers, and which gives each aircraft the list
    [evaluate_all] returns for it: one result per loaded directive, in load
    order. *)
Theorem evaluate_fleet_spec self fleet :
  Forall (fun a => 0 <= AircraftConfiguration.msn a) fleet ->
  List.NoDup (map identity fleet) ->
  size (evaluate_fleet self fleet) = length fleet
  /\ (forall key, is_Some (evaluate_fleet self fleet !! key) <->
                  In key (map aircraft_id fleet))
  /\ forall aircraft, In aircraft fleet ->
       evaluate_fleet self fleet !! aircraft_id aircraft = Some (evaluate_all self aircraft)
       /\ evaluate_all self aircraft = map (evaluate self aircraft) (ads self)
       /\ length (evaluate_all self aircraft) = length (ads self).
Proof.
  intros Hpos Hnd. pose proof (aircraft_ids_NoDup fleet Hpos Hnd) as Hids.
  unfold evaluate_fleet. split; [|split].
  - rewrite evaluate_fleet_loop_size; [rewrite map_size_empty; lia|exact Hids|].
    intros a _. apply lookup_empty.
  - intros key. rewrite evaluate_fleet_loop_keys, lookup_empty.
    split; [intros [[? [=]]|H]; exact H | auto].
  - intros aircraft Hin. split; [now apply evaluate_fleet_loop_lookup|].
    split; [apply evaluate_all_map|].
    rewrite evaluate_all_map. apply length_map.
Qed.

Lemma evaluate_fleet_spec_witness :
  let ad :=
    AirworthinessDirective.Build "FAA-2025-23-53" "FAA" None None
      (ApplicabilityRules.Build ["MD-11"; "MD-11F"; "DC-10-30F"] None [] [] []) None in
  let fleet :=
    [AircraftConfiguration.Build "MD-11" 48123 [] [];
     AircraftConfiguration.Build "A320-214" 5234 [] []] in
  size (evaluate_fleet (Build [ad]) fleet) = 2%nat.
Proof.
  intros ad fleet.
  refine (proj1 (evaluate_fleet_spec (Build [ad]) fleet _ _)).
  - repeat constructor; simpl; lia.
  - simpl. repeat constructor; simpl; intros H;
      repeat (destruct H as [H|H]; [discriminate H|]); exact H.
Defined.

(** C8 fails as worded: with a negative serial number two distinct
    (model, serial) pairs can give the same identifier. The aircraft
    ("A-", 5) and ("A", -5) are both filed under "A--5", so the mapping for
    this fleet of two has one key. *)
Lemma evaluate_fleet_identifier_collision :
  let fleet :=
    [AircraftConfiguration.Build "A-" 5 [] [];
     AircraftConfiguration.Build "A" (-5) [] []] in
  List.NoDup (map identity fleet)
  /\ length fleet = 2%nat
  /\ size (evaluate_fleet (Build []) fleet) = 1%nat.
Proof.
  split; [|split; [reflexivity | vm_compute; reflexivity]].
  simpl. repeat constructor; simpl; intros H;
    repeat (destruct H as [H|H]; [discriminate H|]); exact H.
Qed.

(** ** Loading *)

Lemma load_loop_failure int_field self rules_data self' e :
  load_loop int_field self rules_data = (self', Py.Raise e) ->
  exists before failing after built,
    rules_data = (before ++ failing :: after)%list
    /\ Forall2 (fun ad_data ad => load_one int_field ad_data = Py.Return ad) before built
    /\ load_one int_field failing = Py.Raise e
    /\ ads self' = (ads self ++ built)%list.
Proof.
  revert self; induction rules_data as [|ad_data rest IH]; intros self; simpl.
  - discriminate.
  - destruct (load_one int_field ad_data) as [e0|ad] eqn:Hone.
    + intros [= <- <-]. exists [], ad_data, rest, [].
      rewrite app_nil_r. repeat split; [constructor | exact Hone].
    + intros Hrest. destruct (IH _ Hrest) as (before & failing & after & built & H).
      destruct H as (-> & Hbuilt & Hfail & Hads). simpl in Hads.
      exists (ad_data :: before), failing, after, (ad :: built).
      repeat split; [now constructor | exact Hfail |].
      now rewrite Hads, <- app_assoc.
Qed.

(** C2, as the code has it. A load-time error ends [load_rules] at the first
    definition that fails: either the source could not be read or iterated
    and the engine is unchanged, or the directives built from the definitions
    before the failing one have been appended to the collection, in order,
    after its prior contents, and nothing from the failing definition or a
    later one has. The constructor passes the error on, so it yields no
    engine. *)
Theorem load_rules_failure read_json int_field self rules_path self' e :
  load_rules read_json int_field self rules_path = (self', Py.Raise e) ->
  ((rules_data ← read_json rules_path; Py.iterate rules_data) = Py.Raise e
   /\ self' = self
   \/ exists before failing after built,
        (rules_data ← read_json rules_path; Py.iterate rules_data)
          = Py.Return (before ++ failing :: after)%list
        /\ Forall2 (fun ad_data ad => load_one int_field ad_data = Py.Return ad) before built
        /\ load_one int_field failing = Py.Raise e
        /\ ads self' = (ads self ++ built)%list)
  /\ (ads self = [] -> init read_json int_field rules_path = Py.Raise e).
Proof.
  intros Hload. split.
  - unfold load_rules in Hload.
    destruct (rules_data ← read_json rules_path; Py.iterate rules_data) as [e0|items].
    + left. injection Hload as <- <-. auto.
    + right. apply load_loop_failure in Hload
        as (before & failing & after & built & -> & H).
      exists before, failing, after, built. auto.
  - intros Hempty. unfold init. destruct self as [l]. simpl in Hempty. subst l.
    now rewrite Hload.
Qed.

Lemma load_rules_failure_witness :
  ads (fst (load_rules example_files int_exact (Build []) "unknown_kind.json"))
    = [first_directive]
  /\ init example_files int_exact "unknown_kind.json"
     = Py.Raise (Py.ValidationError "type").
Proof.
  destruct (load_rules_failure example_files int_exact (Build []) "unknown_kind.json"
              (Build [first_directive]) (Py.ValidationError "type"))
    as [_ Hinit]; [reflexivity|].
  split; [reflexivity | apply Hinit; reflexivity].
Defined.

(** C2 fails as worded: [load_rules] on an engine keeps what it appended
    before the error. The source below defines a well-formed directive and
    then one without [aircraft_models]; the call raises, and the engine,
    empty before, now holds the first directive of the failing source. *)
Lemma load_rules_keeps_directives_before_error :
  load_rules example_files int_exact (Build []) "missing_models.json"
  = (Build [first_directive], Py.Raise (Py.ValidationError "aircraft_models")).
Proof. reflexivity. Qed.

(** ** Scenarios *)

Example normalize_trims_and_lowers :
  normalize "  SB A320-57-1089 Rev 04 " = "sb a320-57-1089 rev 04".
Proof. reflexivity. Qed.

Example revision_suffix_matches :
  ModificationConstraint.matches
    (ModificationConstraint.Build "SB A320-57-1089" [] None) "SB A320-57-1089 Rev 04"
  = true.
Proof. reflexivity. Qed.

Example list_constraint_members :
  let c := MSNConstraint.Build LIST None None (Some [5; 10]) in
  MSNConstraint.matches c 7 = false /\ MSNConstraint.matches c 10 = true.
Proof. split; reflexivity. Qed.

Example required_modification_scenario :
  let ad :=
    AirworthinessDirective.Build "EASA-2025-0254" "EASA" None None
      (ApplicabilityRules.Build ["A320-214"] None []
         [ModificationConstraint.Build "mod 24591" [] None] []) None in
  let status_for serial mods :=
    ComplianceResult.status
      (evaluate (Build [ad]) (AircraftConfiguration.Build "A320-214" serial mods []) ad) in
  status_for 5234 [] = "no"
  /\ status_for 7456 ["SB A320-57-1089 Rev 04"] = "no"
  /\ status_for 6789 ["mod 24591 (production)"] = "yes".
Proof. repeat split. Qed.

Example load_well_formed_source :
  load_rules (fun _ => Py.Return (Py.JList
                [Py.JDict
                   [("ad_id", Py.JStr "FAA-2025-23-53");
                    ("issuing_authority", Py.JStr "FAA");
                    ("applicability_rules",
                     Py.JDict [("aircraft_models",
                                Py.JList [Py.JStr "MD-11"; Py.JStr "MD-11F"])])]]))
    int_exact (Build []) "ad_rules.json"
  = (Build [first_directive], Py.Return tt).
Proof. reflexivity. Qed.

(** * Further properties of the code *)

(** ** The decision table of [evaluate] *)

Lemma evaluate_verdict self aircraft ad :
  let r := evaluate self aircraft ad in
  ComplianceResult.status r =
    (if negb (fst (check_aircraft_model self aircraft ad)) then "not applicable"
     else if negb (fst (check_msn_constraints self aircraft ad)) then "not applicable"
     else if fst (check_excluded_modifications self aircraft ad) then "no"
     else if negb (fst (check_required_modifications self aircraft ad)) then "no"
     else "yes")
  /\ ComplianceResult.is_affected r =
       fst (check_aircraft_model self aircraft ad)
       && fst (check_msn_constraints self aircraft ad)
       && negb (fst (check_excluded_modifications self aircraft ad))
       && fst (check_required_modifications self aircraft ad).
Proof.
  unfold evaluate.
  destruct (check_aircraft_model self aircraft ad) as [[] ?];
    destruct (check_msn_constraints self aircraft ad) as [[] ?];
    destruct (check_excluded_modifications self aircraft ad) as [[] ?];
    destruct (check_required_modifications self aircraft ad) as [[] ?];
    split; reflexivity.
Qed.

Lemma check_msn_constraints_serial_passes self aircraft ad :
  fst (check_msn_constraints self aircraft ad) = true <-> serial_passes aircraft ad.
Proof. apply check_msn_constraints_passes. Qed.

(** X1. The verdict is "yes" exactly when the model is listed, the serial
    stage passes, no excluded constraint matches a modification of the
    aircraft, and the requirement list is empty or one of its constraints
    matches a modification. *)
Theorem evaluate_yes_iff self aircraft ad :
  ComplianceResult.status (evaluate self aircraft ad) = "yes" <->
  In (AircraftConfiguration.aircraft_model aircraft)
     (ApplicabilityRules.aircraft_models (AirworthinessDirective.applicability_rules ad))
  /\ serial_passes aircraft ad
  /\ ~ some_match
         (ApplicabilityRules.excluded_if_modifications
            (AirworthinessDirective.applicability_rules ad))
         (AircraftConfiguration.modifications aircraft)
  /\ (ApplicabilityRules.required_modifications
        (AirworthinessDirective.applicability_rules ad) = []
      \/ some_match
           (ApplicabilityRules.required_modifications
              (AirworthinessDirective.applicability_rules ad))
           (AircraftConfiguration.modifications aircraft)).
Proof.
  rewrite (proj1 (evaluate_verdict self aircraft ad)).
  rewrite <- (check_aircraft_model_passes self), <- (check_msn_constraints_serial_passes self),
    <- (check_excluded_modifications_excludes self),
    <- (check_required_modifications_passes self).
  destruct (fst (check_aircraft_model self aircraft ad)),
    (fst (check_msn_constraints self aircraft ad)),
    (fst (check_excluded_modifications self aircraft ad)),
    (fst (check_required_modifications self aircraft ad)); simpl;
    (split;
     [ intros H; try discriminate H; repeat split; auto; discriminate
     | intros (H1 & H2 & H3 & H4); try discriminate; try reflexivity;
       exfalso; apply H3; reflexivity ]).
Qed.

(** X2. The verdict is "not applicable" exactly when the model is not listed
    or the serial stage fails; the modifications play no part in it. *)
Theorem evaluate_not_applicable_iff self aircraft ad :
  ComplianceResult.status (evaluate self aircraft ad) = "not applicable" <->
  ~ In (AircraftConfiguration.aircraft_model aircraft)
       (ApplicabilityRules.aircraft_models (AirworthinessDirective.applicability_rules ad))
  \/ ~ serial_passes aircraft ad.
Proof.
  rewrite (proj1 (evaluate_verdict self aircraft ad)).
  rewrite <- (check_aircraft_model_passes self), <- (check_msn_constraints_serial_passes self).
  destruct (fst (check_aircraft_model self aircraft ad)),
    (fst (check_msn_constraints self aircraft ad)),
    (fst (check_excluded_modifications self aircraft ad)),
    (fst (check_required_modifications self aircraft ad)); simpl;
    (split;
     [ intros H; try discriminate H;
       ((left; discriminate) || (right; discriminate))
     | intros [H|H]; try reflexivity; exfalso; apply H; reflexivity ]).
Qed.

(** X3. The verdict is "no" exactly when the model is listed and the serial
    stage passes, and either an excluded constraint matches a modification
    or the requirement list is not empty and none of its constraints matches
    one. *)
Theorem evaluate_no_iff self aircraft ad :
  ComplianceResult.status (evaluate self aircraft ad) = "no" <->
  In (AircraftConfiguration.aircraft_model aircraft)
     (ApplicabilityRules.aircraft_models (AirworthinessDirective.applicability_rules ad))
  /\ serial_passes aircraft ad
  /\ (some_match
        (ApplicabilityRules.excluded_if_modifications
           (AirworthinessDirective.applicability_rules ad))
        (AircraftConfiguration.modifications aircraft)
      \/ ApplicabilityRules.required_modifications
           (AirworthinessDirective.applicability_rules ad) <> []
         /\ ~ some_match
                (ApplicabilityRules.required_modifications
                   (AirworthinessDirective.applicability_rules ad))
                (AircraftConfiguration.modifications aircraft)).
Proof.
  rewrite (proj1 (evaluate_verdict self aircraft ad)).
  pose proof (check_required_modifications_passes self aircraft ad) as Hreq.
  rewrite <- (check_aircraft_model_passes self), <- (check_msn_constraints_serial_passes self),
    <- (check_excluded_modifications_excludes self).
  destruct (fst (check_aircraft_model self aircraft ad)),
    (fst (check_msn_constraints self aircraft ad)),
    (fst (check_excluded_modifications self aircraft ad)),
    (fst (check_required_modifications self aircraft ad)); simpl;
    (split;
     [ intros H; try discriminate H | intros (H1 & H2 & H3); try discriminate ]);
    try reflexivity; try (repeat split; auto; fail).
  - destruct H3 as [H3|[Hne Hno]]; [discriminate|].
    destruct (proj1 Hreq eq_refl); contradiction.
  - repeat split. right. split.
    + intros Hnil. assert (false = true) by (apply Hreq; auto). discriminate.
    + intros Hm. assert (false = true) by (apply Hreq; auto). discriminate.
Qed.

(** X4. A serial number that the directive's constraint does not match ends
    the evaluation at the serial stage: "not applicable", not affected, and a
    reason of the model and serial sentences only, whatever the
    modifications of the aircraft and the modification constraints of the
    directive are. *)
Theorem evaluate_serial_mismatch self aircraft ad c :
  In (AircraftConfiguration.aircraft_model aircraft)
     (ApplicabilityRules.aircraft_models (AirworthinessDirective.applicability_rules ad)) ->
  ApplicabilityRules.msn_constraints (AirworthinessDirective.applicability_rules ad) = Some c ->
  MSNConstraint.matches c (AircraftConfiguration.msn aircraft) = false ->
  evaluate self aircraft ad =
  ComplianceResult.Build
    (AirworthinessDirective.ad_id ad)
    (AircraftConfiguration.aircraft_model aircraft)
    (AircraftConfiguration.msn aircraft)
    false
    "not applicable"
    (Py.join "; "
       ["Model check: Aircraft model '" +:+ AircraftConfiguration.aircraft_model aircraft
          +:+ "' is in the affected models list";
        "MSN check: MSN " +:+ Py.str_int (AircraftConfiguration.msn aircraft)
          +:+ " does not meet the constraints"]).
Proof.
  intros Hmodel Hc Hno. rewrite <- str_in_true_iff in Hmodel.
  unfold evaluate, check_aircraft_model, check_msn_constraints.
  rewrite Hmodel, Hc, Hno. reflexivity.
Qed.

Lemma evaluate_serial_mismatch_witness :
  let aircraft :=
    AircraftConfiguration.Build "A320-214" 99 ["mod 24591 (production)"] [] in
  let c := MSNConstraint.Build RANGE (Some 100) (Some 200) None in
  let ad :=
    AirworthinessDirective.Build "EASA-2025-0254" "EASA" None None
      (ApplicabilityRules.Build ["A320-214"] (Some c)
         [] [ModificationConstraint.Build "mod 24591" [] None] [])
      None in
  ComplianceResult.status (evaluate (Build []) aircraft ad) = "not applicable"
  /\ ComplianceResult.reason (evaluate (Build []) aircraft ad)
     = "Model check: Aircraft model 'A320-214' is in the affected models list; "
       +:+ "MSN check: MSN 99 does not meet the constraints".
Proof.
  intros aircraft c ad.
  rewrite (evaluate_serial_mismatch (Build []) aircraft ad c).
  - split; reflexivity.
  - left. reflexivity.
  - reflexivity.
  - reflexivity.
Defined.

(** X5. An aircraft without modifications is never excluded, and its verdict
    is "yes" exactly when the model is listed, the serial stage passes and
    the directive requires no modification. *)
Theorem evaluate_without_modifications self aircraft ad :
  AircraftConfiguration.modifications aircraft = [] ->
  fst (check_excluded_modifications self aircraft ad) = false
  /\ (ComplianceResult.status (evaluate self aircraft ad) = "yes" <->
      In (AircraftConfiguration.aircraft_model aircraft)
         (ApplicabilityRules.aircraft_models (AirworthinessDirective.applicability_rules ad))
      /\ serial_passes aircraft ad
      /\ ApplicabilityRules.required_modifications
           (AirworthinessDirective.applicability_rules ad) = []).
Proof.
  intros Hmods.
  assert (Hnone : forall cs, ~ some_match cs (AircraftConfiguration.modifications aircraft)).
  { intros cs (c & m & _ & Hm & _). rewrite Hmods in Hm. destruct Hm. }
  assert (Hexcl : fst (check_excluded_modifications self aircraft ad) = false).
  { destruct (fst (check_excluded_modifications self aircraft ad)) eqn:H; [|reflexivity].
    apply check_excluded_modifications_excludes in H. destruct (Hnone _ H). }
  split; [exact Hexcl|].
  rewrite (proj1 (evaluate_verdict self aircraft ad)), Hexcl.
  pose proof (check_required_modifications_passes self aircraft ad) as Hreq.
  rewrite <- (check_aircraft_model_passes self), <- (check_msn_constraints_serial_passes self).
  destruct (fst (check_aircraft_model self aircraft ad)),
    (fst (check_msn_constraints self aircraft ad)),
    (fst (check_required_modifications self aircraft ad)); simpl;
    (split; [intros H; try discriminate H | intros (H1 & H2 & H3); try discriminate]);
    try reflexivity.
  - repeat split. destruct (proj1 Hreq eq_refl) as [H0|H0]; [exact H0 | destruct (Hnone _ H0)].
  - assert (false = true) by (apply Hreq; auto). discriminate.
Qed.

Lemma evaluate_without_modifications_witness :
  let aircraft := AircraftConfiguration.Build "MD-11" 48123 [] [] in
  let ad :=
    AirworthinessDirective.Build "EASA-2025-0254" "EASA" None None
      (ApplicabilityRules.Build ["MD-11"] None
         [ModificationConstraint.Build "" [] None]
         [ModificationConstraint.Build "mod 24591" [] None] []) None in
  fst (check_excluded_modifications (Build []) aircraft ad) = false.
Proof.
  intros aircraft ad.
  apply (evaluate_without_modifications (Build []) aircraft ad). reflexivity.
Defined.

Lemma some_match_Permutation cs cs' mods mods' :
  Permutation cs cs' -> Permutation mods mods' ->
  some_match cs mods -> some_match cs' mods'.
Proof.
  intros Hcs Hmods (c & m & Hc & Hm & Hmatch). exists c, m.
  split; [now apply (Permutation_in c Hcs)|].
  split; [now apply (Permutation_in m Hmods) | exact Hmatch].
Qed.

Lemma bool_eq_of_iff (a b : bool) : (a = true <-> b = true) -> a = b.
Proof.
  destruct a, b; intros [H1 H2]; try reflexivity;
    [symmetry; apply H1; reflexivity | apply H2; reflexivity].
Qed.

(** X6. The verdict does not depend on the order in which the aircraft lists
    its modifications or the directive lists its excluded and required
    constraints: reordering them leaves status and [is_affected] unchanged. *)
Theorem evaluate_verdict_order_independent self aircraft ad mods excluded required :
  Permutation (AircraftConfiguration.modifications aircraft) mods ->
  Permutation (ApplicabilityRules.excluded_if_modifications
                 (AirworthinessDirective.applicability_rules ad)) excluded ->
  Permutation (ApplicabilityRules.required_modifications
                 (AirworthinessDirective.applicability_rules ad)) required ->
  let r := evaluate self aircraft ad in
  let r' := evaluate self (with_modifications aircraft mods)
              (with_constraints ad excluded required) in
  ComplianceResult.status r' = ComplianceResult.status r
  /\ ComplianceResult.is_affected r' = ComplianceResult.is_affected r.
Proof.
  intros Hmods Hexcl Hreq.
  set (aircraft' := with_modifications aircraft mods).
  set (ad' := with_constraints ad excluded required).
  assert (H1 : fst (check_aircraft_model self aircraft' ad')
               = fst (check_aircraft_model self aircraft ad)) by reflexivity.
  assert (H2 : fst (check_msn_constraints self aircraft' ad')
               = fst (check_msn_constraints self aircraft ad)).
  { unfold check_msn_constraints. simpl.
    destruct (ApplicabilityRules.msn_constraints _); [|reflexivity].
    destruct (MSNConstraint.matches _ _); reflexivity. }
  assert (H3 : fst (check_excluded_modifications self aircraft' ad')
               = fst (check_excluded_modifications self aircraft ad)).
  { apply bool_eq_of_iff. rewrite !check_excluded_modifications_excludes. simpl.
    split; apply some_match_Permutation; auto; now symmetry. }
  assert (H4 : fst (check_required_modifications self aircraft' ad')
               = fst (check_required_modifications self aircraft ad)).
  { apply bool_eq_of_iff. rewrite !check_required_modifications_passes. simpl.
    split; intros [Hnil|Hm].
    - left. rewrite Hnil in Hreq. symmetry in Hreq. now apply Permutation_nil in Hreq.
    - right. revert Hm. apply some_match_Permutation; now symmetry.
    - left. rewrite Hnil in Hreq. now apply Permutation_nil in Hreq.
    - right. revert Hm. now apply some_match_Permutation. }
  simpl.
  destruct (evaluate_verdict self aircraft ad) as [-> ->].
  destruct (evaluate_verdict self aircraft' ad') as [-> ->].
  now rewrite H1, H2, H3, H4.
Qed.

Lemma evaluate_verdict_order_independent_witness :
  let aircraft :=
    AircraftConfiguration.Build "A320-214" 7456
      ["SB A320-57-1089 Rev 04"; "mod 24591 (production)"] [] in
  let ad :=
    AirworthinessDirective.Build "EASA-2025-0254" "EASA" None None
      (ApplicabilityRules.Build ["A320-214"] None []
         [ModificationConstraint.Build "mod 24591" [] None;
          ModificationConstraint.Build "mod 24977" [] None] []) None in
  let r := evaluate (Build []) aircraft ad in
  let r' := evaluate (Build [])
              (with_modifications aircraft
                 ["mod 24591 (production)"; "SB A320-57-1089 Rev 04"])
              (with_constraints ad []
                 [ModificationConstraint.Build "mod 24977" [] None;
                  ModificationConstraint.Build "mod 24591" [] None]) in
  ComplianceResult.status r' = ComplianceResult.status r
  /\ ComplianceResult.is_affected r' = ComplianceResult.is_affected r.
Proof.
  intros aircraft ad.
  apply (evaluate_verdict_order_independent (Build []) aircraft ad).
  - apply perm_swap.
  - apply perm_nil.
  - apply perm_swap.
Defined.

(** ** Results of a whole collection and of a fleet *)

Lemma evaluate_copies_identity self aircraft ad :
  let r := evaluate self aircraft ad in
  ComplianceResult.ad_id r = AirworthinessDirective.ad_id ad
  /\ ComplianceResult.aircraft_model r = AircraftConfiguration.aircraft_model aircraft
  /\ ComplianceResult.msn r = AircraftConfiguration.msn aircraft.
Proof.
  unfold evaluate.
  destruct (check_aircraft_model self aircraft ad) as [[] ?];
    destruct (check_msn_constraints self aircraft ad) as [[] ?];
    destruct (check_excluded_modifications self aircraft ad) as [[] ?];
    destruct (check_required_modifications self aircraft ad) as [[] ?];
    repeat split.
Qed.

(** X7. The results [evaluate_all] returns carry, in order, the identifiers
    of the loaded directives, and each of them the model and serial number of
    the aircraft evaluated; with nothing loaded the list is empty. *)
Theorem evaluate_all_identifies_inputs self aircraft :
  map ComplianceResult.ad_id (evaluate_all self aircraft) = loaded_ids self
  /\ Forall (fun r =>
               ComplianceResult.aircraft_model r
               = AircraftConfiguration.aircraft_model aircraft
               /\ ComplianceResult.msn r = AircraftConfiguration.msn aircraft)
       (evaluate_all self aircraft).
Proof.
  rewrite evaluate_all_map. unfold loaded_ids.
  induction (ads self) as [|ad l [IH1 IH2]]; simpl; [split; constructor|].
  destruct (evaluate_copies_identity self aircraft ad) as (Hid & Hmodel & Hmsn).
  split; [now rewrite Hid, IH1 | constructor; auto].
Qed.

Lemma evaluate_fleet_loop_app self fleet1 fleet2
    (m : gmap string (list ComplianceResult.t)) :
  evaluate_fleet_loop self (fleet1 ++ fleet2) m
  = evaluate_fleet_loop self fleet2 (evaluate_fleet_loop self fleet1 m).
Proof.
  revert m; induction fleet1 as [|x fleet1 IH]; intros m; simpl; [reflexivity|].
  apply IH.
Qed.

Lemma evaluate_fleet_loop_size_le self fleet (m : gmap string (list ComplianceResult.t)) :
  (size (evaluate_fleet_loop self fleet m) <= size m + length fleet)%nat.
Proof.
  revert m; induction fleet as [|x fleet IH]; intros m; simpl; [lia|].
  etransitivity; [apply IH|]. rewrite map_size_insert.
  destruct (m !! aircraft_id x); simpl; lia.
Qed.

(** X8. [evaluate_fleet] does not reject aircraft that share an identifier:
    the entry under an identifier holds the results of the last aircraft in
    the fleet with that identifier, and the mapping never has more keys than
    the fleet has aircraft. *)
Theorem evaluate_fleet_last_wins self before aircraft after :
  (forall other, In other after -> aircraft_id other <> aircraft_id aircraft) ->
  evaluate_fleet self (before ++ aircraft :: after) !! aircraft_id aircraft
    = Some (evaluate_all self aircraft)
  /\ (size (evaluate_fleet self (before ++ aircraft :: after))
      <= length (before ++ aircraft :: after))%nat.
Proof.
  intros Hlast. unfold evaluate_fleet. split.
  - rewrite evaluate_fleet_loop_app. simpl.
    rewrite evaluate_fleet_loop_other; [apply lookup_insert_eq|].
    intros Hin. apply in_map_iff in Hin as (other & Hid & Hother).
    now apply (Hlast other).
  - etransitivity; [apply evaluate_fleet_loop_size_le|].
    rewrite map_size_empty. lia.
Qed.

Lemma evaluate_fleet_last_wins_witness :
  let ad :=
    AirworthinessDirective.Build "EASA-2025-0254" "EASA" None None
      (ApplicabilityRules.Build ["A320-214"] None
         [ModificationConstraint.Build "mod 24591" [] None] [] []) None in
  let first := AircraftConfiguration.Build "A320-214" 5234 [] [] in
  let second := AircraftConfiguration.Build "A320-214" 5234 ["mod 24591 (production)"] [] in
  evaluate_fleet (Build [ad]) ([first] ++ second :: []) !! aircraft_id second
    = Some (evaluate_all (Build [ad]) second).
Proof.
  intros ad first second.
  apply (evaluate_fleet_last_wins (Build [ad]) [first] second []).
  intros other [].
Defined.

(** ** Serial and modification constraints *)

(** X9. A RANGE constraint whose lower bound exceeds its upper bound matches
    no serial number. *)
Theorem range_with_crossed_bounds_matches_nothing (lo hi : Z) values (msn : Z) :
  hi < lo ->
  MSNConstraint.matches (MSNConstraint.Build RANGE (Some lo) (Some hi) values) msn = false.
Proof.
  intros Hcross. unfold MSNConstraint.matches. simpl.
  destruct (Z.ltb_spec msn lo); [reflexivity|].
  rewrite Z.gtb_ltb. destruct (Z.ltb_spec hi msn); [reflexivity | lia].
Qed.

Lemma range_with_crossed_bounds_matches_nothing_witness :
  MSNConstraint.matches (MSNConstraint.Build RANGE (Some 200) (Some 100) None) 150 = false.
Proof.
  apply (range_with_crossed_bounds_matches_nothing 200 100 None 150). lia.
Defined.

Lemma lower_char_idempotent (c : ascii) :
  Py.lower_char (Py.lower_char c) = Py.lower_char c.
Proof. destruct c as [[] [] [] [] [] [] [] []]; reflexivity. Qed.

Lemma is_space_lower_char (c : ascii) : Py.is_space (Py.lower_char c) = Py.is_space c.
Proof. destruct c as [[] [] [] [] [] [] [] []]; reflexivity. Qed.

Lemma lower_idempotent (s : string) : Py.lower (Py.lower s) = Py.lower s.
Proof.
  induction s as [|c s IH]; simpl; [reflexivity|].
  now rewrite lower_char_idempotent, IH.
Qed.

Lemma lower_app (s t : string) : Py.lower (s +:+ t) = Py.lower s +:+ Py.lower t.
Proof.
  induction s as [|c s IH]; [reflexivity|].
  rewrite app_String. simpl. now rewrite IH.
Qed.

Lemma any_alias_lower aliases mod_lower :
  ModificationConstraint.any_alias (map Py.lower aliases) mod_lower
  = ModificationConstraint.any_alias aliases mod_lower.
Proof.
  induction aliases as [|a aliases IH]; simpl; [reflexivity|].
  now rewrite lower_idempotent, IH.
Qed.

(** X10. The modification match is case-insensitive: lower-casing the
    identifier, the aliases and the text does not change its outcome. *)
Theorem modification_matches_case_insensitive mod_id aliases description text :
  ModificationConstraint.matches
    (ModificationConstraint.Build (Py.lower mod_id) (map Py.lower aliases) description)
    (Py.lower text)
  = ModificationConstraint.matches
      (ModificationConstraint.Build mod_id aliases description) text.
Proof.
  unfold ModificationConstraint.matches. simpl.
  now rewrite !lower_idempotent, any_alias_lower.
Qed.

Lemma all_space_lower (s : string) : all_space (Py.lower s) = all_space s.
Proof.
  induction s as [|c s IH]; simpl; [reflexivity|].
  now rewrite is_space_lower_char, IH.
Qed.

Lemma lstrip_all_space (p : string) : all_space p = true -> Py.lstrip p = "".
Proof.
  induction p as [|c p IH]; simpl; [reflexivity|].
  intros [Hc Hp]%andb_true_iff. rewrite Hc. auto.
Qed.

Lemma rstrip_all_space (q : string) : all_space q = true -> Py.rstrip q = "".
Proof.
  induction q as [|c q IH]; simpl; [reflexivity|].
  intros [Hc Hq]%andb_true_iff. rewrite (IH Hq), Hc. reflexivity.
Qed.

Lemma lstrip_all_space_app (p s : string) :
  all_space p = true -> Py.lstrip (p +:+ s) = Py.lstrip s.
Proof.
  induction p as [|c p IH]; [reflexivity|].
  rewrite app_String. simpl. intros [Hc Hp]%andb_true_iff. rewrite Hc. auto.
Qed.

Lemma rstrip_app_all_space (s q : string) :
  all_space q = true -> Py.rstrip (s +:+ q) = Py.rstrip s.
Proof.
  intros Hq. induction s as [|c s IH].
  - rewrite app_empty. simpl. now apply rstrip_all_space.
  - rewrite app_String. simpl. now rewrite IH.
Qed.

Lemma lstrip_app_all_space (s q : string) :
  all_space q = true ->
  Py.lstrip (s +:+ q) = Py.lstrip s +:+ q
  \/ Py.lstrip s = "" /\ Py.lstrip (s +:+ q) = "".
Proof.
  intros Hq. induction s as [|c s IH].
  - right. rewrite app_empty. split; [reflexivity | now apply lstrip_all_space].
  - rewrite app_String. simpl. destruct (Py.is_space c); [exact IH|].
    left. now rewrite app_String.
Qed.

Lemma strip_padded (p s q : string) :
  all_space p = true -> all_space q = true ->
  Py.strip (p +:+ s +:+ q) = Py.strip s.
Proof.
  intros Hp Hq. unfold Py.strip. rewrite lstrip_all_space_app by exact Hp.
  destruct (lstrip_app_all_space s q Hq) as [->|[-> ->]]; [|reflexivity].
  now apply rstrip_app_all_space.
Qed.

(** X11. Whitespace around the text of an aircraft modification never
    changes the outcome of the match. *)
Theorem modification_matches_ignores_padding c (before text after : string) :
  all_space before = true -> all_space after = true ->
  ModificationConstraint.matches c (before +:+ text +:+ after)
  = ModificationConstraint.matches c text.
Proof.
  intros Hb Ha. unfold ModificationConstraint.matches.
  rewrite !lower_app, strip_padded; [reflexivity|now rewrite all_space_lower..].
Qed.

Lemma modification_matches_ignores_padding_witness :
  ModificationConstraint.matches
    (ModificationConstraint.Build "mod 24591" [] None)
    ("  " +:+ "MOD 24591 (production)" +:+ " ")
  = ModificationConstraint.matches
      (ModificationConstraint.Build "mod 24591" [] None) "MOD 24591 (production)".
Proof.
  apply (modification_matches_ignores_padding
           (ModificationConstraint.Build "mod 24591" [] None)
           "  " "MOD 24591 (production)" " "); reflexivity.
Defined.










Lemma app_nonempty_l (s b : string) : s <> "" -> s +:+ b <> "".
Proof. destruct s; [congruence | rewrite app_String; discriminate]. Qed.








(** ** Loading directive definitions *)

Lemma load_loop_success int_field self rules_data built :
  Forall2 (fun ad_data ad => load_one int_field ad_data = Py.Return ad) rules_data built ->
  load_loop int_field self rules_data = (Build (ads self ++ built)%list, Py.Return tt).
Proof.
  intros H. revert self. induction H as [|ad_data ad rest built Hone _ IH]; intros self.
  - simpl. rewrite app_nil_r. now destruct self.
  - simpl. rewrite Hone, IH. simpl. now rewrite <- app_assoc.
Qed.

Lemma load_loop_success_inv int_field self rules_data self' :
  load_loop int_field self rules_data = (self', Py.Return tt) ->
  exists built,
    Forall2 (fun ad_data ad => load_one int_field ad_data = Py.Return ad) rules_data built
    /\ ads self' = (ads self ++ built)%list.
Proof.
  revert self. induction rules_data as [|ad_data rest IH]; intros self; simpl.
  - intros [= <-]. exists []. rewrite app_nil_r. split; [constructor | reflexivity].
  - destruct (load_one int_field ad_data) as [e|ad] eqn:Hone; [discriminate|].
    intros Hrest. destruct (IH _ Hrest) as (built & Hbuilt & Hads). simpl in Hads.
    exists (ad :: built). split; [now constructor|].
    now rewrite Hads, <- app_assoc.
Qed.



(** X14. Loading the same source a second time does not replace the
    directives of the first load: the collection then holds them twice. *)
Theorem load_rules_twice_duplicates read_json int_field self rules_path self' :
  load_rules read_json int_field self rules_path = (self', Py.Return tt) ->
  exists built,
    ads self' = (ads self ++ built)%list
    /\ load_rules read_json int_field self' rules_path
       = (Build (ads self ++ built ++ built)%list, Py.Return tt).
Proof.
  unfold load_rules.
  destruct (rules_data ← read_json rules_path; Py.iterate rules_data) as [e|items];
    [discriminate|].
  intros Hloop. apply load_loop_success_inv in Hloop as (built & Hbuilt & Hads).
  exists built. split; [exact Hads|].
  rewrite (load_loop_success _ _ _ _ Hbuilt), Hads. now rewrite <- app_assoc.
Qed.

Lemma load_rules_twice_duplicates_witness :
  let files : string -> Py.py_result Py.json := fun _ =>
    Py.Return (Py.JList
      [Py.JDict
         [("ad_id", Py.JStr "FAA-2025-23-53");
          ("issuing_authority", Py.JStr "FAA");
          ("applicability_rules",
           Py.JDict [("aircraft_models", Py.JList [Py.JStr "MD-11"; Py.JStr "MD-11F"])])]]) in
  exists built,
    [first_directive] = ([] ++ built)%list
    /\ load_rules files int_exact (Build [first_directive]) "ad_rules.json"
       = (Build ([] ++ built ++ built)%list, Py.Return tt).
Proof.
  intros files.
  apply (load_rules_twice_duplicates files int_exact (Build []) "ad_rules.json"
           (Build [first_directive])).
  reflexivity.
Defined.

Lemma bind_Return {A B} (m : Py.py_result A) (k : A -> Py.py_result B) (y : B) :
  (m ≫= k) = Py.Return y -> exists x, m = Py.Return x /\ k x = Py.Return y.
Proof. destruct m as [e|x]; [discriminate | eauto]. Qed.

Lemma getitem_Return (v : Py.json) (key : string) (x : Py.json) :
  Py.getitem v key = Py.Return x ->
  exists entries, v = Py.JDict entries /\ Py.dict_get entries key = Some x.
Proof.
  destruct v; try discriminate. simpl.
  destruct (Py.dict_get entries key) eqn:H; [|discriminate].
  intros [= <-]. eauto.
Qed.

Lemma required_Return {A} entries name (valid : Py.json -> option A) (x : A) :
  Pydantic.required entries name valid = Py.Return x ->
  exists v, Py.dict_get entries name = Some v /\ valid v = Some x.
Proof.
  unfold Pydantic.required. destruct (Py.dict_get entries name) as [v|]; [|discriminate].
  destruct (valid v) eqn:Hv; [|discriminate]. intros [= <-]. eauto.
Qed.

Lemma defaulted_Return {A} entries name (default : A) (valid : Py.json -> option A) (x : A) :
  Pydantic.defaulted entries name default valid = Py.Return x ->
  Py.dict_get entries name = None /\ x = default
  \/ exists v, Py.dict_get entries name = Some v /\ valid v = Some x.
Proof.
  unfold Pydantic.defaulted. destruct (Py.dict_get entries name) as [v|].
  - destruct (valid v) eqn:Hv; [|discriminate]. intros [= <-]. eauto.
  - intros [= <-]. auto.
Qed.

Lemma str_Some (v : Py.json) (s : string) : Pydantic.str v = Some s -> v = Py.JStr s.
Proof. destruct v; try discriminate. now intros [= <-]. Qed.

Lemma mapM_str_Some (items : list Py.json) (l : list string) :
  mapM Pydantic.str items = Some l -> items = map Py.JStr l.
Proof.
  rewrite mapM_Some. induction 1 as [|v s items l Hv _ IH]; [reflexivity|].
  simpl. now rewrite (str_Some _ _ Hv), IH.
Qed.

Lemma mapM_str_map (l : list string) : mapM Pydantic.str (map Py.JStr l) = Some l.
Proof. induction l as [|s l IH]; [reflexivity|]. simpl. now rewrite IH. Qed.

Lemma list_of_str_Some (v : Py.json) (l : list string) :
  Pydantic.list_of Pydantic.str v = Some l -> v = Py.JList (map Py.JStr l).
Proof.
  destruct v; try discriminate. simpl. intros H. now rewrite (mapM_str_Some _ _ H).
Qed.

Lemma MSNConstraintType_of_Some (v : Py.json) (k : MSNConstraintType) :
  MSNConstraintType_of v = Some k <-> v = Py.JStr (MSNConstraintType_value k).
Proof.
  split.
  - destruct v; try discriminate. simpl.
    destruct (String.eqb_spec s "range") as [->|_]; [now intros [= <-]|].
    destruct (String.eqb_spec s "list") as [->|_]; [now intros [= <-]|].
    destruct (String.eqb_spec s "all") as [->|_]; [now intros [= <-]|discriminate].
  - intros ->. now destruct k.
Qed.

Lemma optional_int_bound int_field fields name (bound : option Z) :
  Pydantic.defaulted fields name None (Pydantic.optional int_field) = Py.Return bound ->
  bound_from int_field fields name bound.
Proof.
  intros H. apply defaulted_Return in H as [[Hnone ->]|(v & Hv & Hvalid)].
  - now left.
  - unfold bound_from. destruct v; simpl in Hvalid;
      try (destruct (int_field _) eqn:Hint; simplify_eq/=; eauto; fail).
    simplify_eq/=. now right.
Qed.

(** X15. [MSNConstraint] is built only from a dict whose [type] is exactly
    one of "range", "list" and "all" (another spelling or letter case is
    refused), and the constraint built has that kind and the bounds the dict
    gives. *)
Theorem msn_constraint_construct_sound int_field data c :
  MSNConstraint.construct int_field data = Py.Return c ->
  exists fields,
    data = Py.JDict fields
    /\ Py.dict_get fields "type"
       = Some (Py.JStr (MSNConstraintType_value (MSNConstraint.type c)))
    /\ bound_from int_field fields "min_msn" (MSNConstraint.min_msn c)
    /\ bound_from int_field fields "max_msn" (MSNConstraint.max_msn c).
Proof.
  destruct data; try discriminate. simpl. unfold MSNConstraint.validate.
  intros H. exists entries.
  apply bind_Return in H as (k & Hk & H).
  apply bind_Return in H as (lo & Hlo & H).
  apply bind_Return in H as (hi & Hhi & H).
  apply bind_Return in H as (vs & Hvs & H).
  injection H as <-. simpl.
  apply required_Return in Hk as (v & Hv & Hk).
  apply MSNConstraintType_of_Some in Hk as ->.
  repeat split; [exact Hv | now apply optional_int_bound..].
Qed.

Lemma msn_constraint_construct_sound_witness :
  exists fields,
    Py.JDict [("type", Py.JStr "range"); ("min_msn", Py.JInt 100); ("max_msn", Py.JNull)]
      = Py.JDict fields
    /\ Py.dict_get fields "type" = Some (Py.JStr "range")
    /\ bound_from int_exact fields "min_msn" (Some 100)
    /\ bound_from int_exact fields "max_msn" None.
Proof.
  apply (msn_constraint_construct_sound int_exact
           (Py.JDict [("type", Py.JStr "range"); ("min_msn", Py.JInt 100);
                      ("max_msn", Py.JNull)])
           (MSNConstraint.Build RANGE (Some 100) None None)).
  reflexivity.
Defined.

Lemma comprehension_Return {A} (f : Py.json -> Py.py_result A) items (ys : list A) :
  Py.comprehension f items = Py.Return ys <->
  Forall2 (fun x y => f x = Py.Return y) items ys.
Proof.
  split.
  - revert ys. induction items as [|x items IH]; intros ys; simpl.
    + intros [= <-]. constructor.
    + intros H. apply bind_Return in H as (y & Hy & H).
      apply bind_Return in H as (ys' & Hys & H). injection H as <-.
      constructor; auto.
  - induction 1 as [|x y items ys Hx _ IH]; simpl; [reflexivity|].
    rewrite Hx. simpl. rewrite IH. reflexivity.
Qed.

Lemma convert_modifications_Return rules_entries key converted :
  convert_modifications (Py.JDict rules_entries) key = Py.Return converted ->
  match Py.dict_get rules_entries key with
  | None => converted = None
  | Some raw =>
      exists items built,
        Py.iterate raw = Py.Return items
        /\ Forall2 (fun x c => ModificationConstraint.construct x = Py.Return c) items built
        /\ converted = Some built
  end.
Proof.
  unfold convert_modifications, Py.key_in, Py.getitem.
  destruct (Py.dict_get rules_entries key) as [raw|] eqn:Hraw.
  - rewrite bool_decide_eq_true_2 by eauto. simpl.
    intros H. apply bind_Return in H as (items & Hitems & H).
    apply bind_Return in H as (built & Hbuilt & H). injection H as <-.
    exists items, built. repeat split; [exact Hitems|].
    now apply comprehension_Return.
  - rewrite bool_decide_eq_false_2 by (intros [? [=]]). simpl. now intros [= <-].
Qed.

(** X16. A definition is admitted only if it is a dict that gives [ad_id]
    and [issuing_authority] as strings and, under [applicability_rules], a
    dict with a list of strings as [aircraft_models]; the directive built
    carries these values, and its excluded and required constraints are
    those built, in order, from the entries listed in the document (none
    when the key is absent). *)
Theorem load_one_sound int_field ad_data ad :
  load_one int_field ad_data = Py.Return ad ->
  exists entries rules_entries,
    ad_data = Py.JDict entries
    /\ Py.dict_get entries "ad_id" = Some (Py.JStr (AirworthinessDirective.ad_id ad))
    /\ Py.dict_get entries "issuing_authority"
       = Some (Py.JStr (AirworthinessDirective.issuing_authority ad))
    /\ Py.dict_get entries "applicability_rules" = Some (Py.JDict rules_entries)
    /\ Py.dict_get rules_entries "aircraft_models"
       = Some (Py.JList (map Py.JStr
                 (ApplicabilityRules.aircraft_models
                    (AirworthinessDirective.applicability_rules ad))))
    /\ match Py.dict_get rules_entries "excluded_if_modifications" with
       | None =>
           ApplicabilityRules.excluded_if_modifications
             (AirworthinessDirective.applicability_rules ad) = []
       | Some raw =>
           exists items,
             Py.iterate raw = Py.Return items
             /\ Forall2 (fun x c => ModificationConstraint.construct x = Py.Return c) items
                  (ApplicabilityRules.excluded_if_modifications
                     (AirworthinessDirective.applicability_rules ad))
       end
    /\ match Py.dict_get rules_entries "required_modifications" with
       | None =>
           ApplicabilityRules.required_modifications
             (AirworthinessDirective.applicability_rules ad) = []
       | Some raw =>
           exists items,
             Py.iterate raw = Py.Return items
             /\ Forall2 (fun x c => ModificationConstraint.construct x = Py.Return c) items
                  (ApplicabilityRules.required_modifications
                     (AirworthinessDirective.applicability_rules ad))
       end.
Proof.
  unfold load_one. intros H.
  apply bind_Return in H as (rules & Hrules & H).
  apply bind_Return in H as (excluded & Hexcl & H).
  apply bind_Return in H as (required & Hreq & H).
  apply bind_Return in H as (msn & Hmsn & H).
  apply getitem_Return in Hrules as (entries & -> & Hrules).
  simpl in H.
  apply bind_Return in H as (id & Hid & H).
  apply bind_Return in H as (auth & Hauth & H).
  apply bind_Return in H as (title & _ & H).
  apply bind_Return in H as (date & _ & H).
  apply bind_Return in H as (ar & Har & H).
  apply bind_Return in H as (summary & _ & H).
  injection H as <-. simpl.
  apply required_Return in Hid as (v1 & Hv1 & ->%str_Some).
  apply required_Return in Hauth as (v2 & Hv2 & ->%str_Some).
  rewrite Hrules in Har.
  destruct rules as [| | | | |rules_entries]; try discriminate.
  simpl in Har.
  apply bind_Return in Har as (models & Hmodels & Har).
  apply bind_Return in Har as (msn' & _ & Har).
  apply bind_Return in Har as (extra & _ & Har).
  injection Har as <-. simpl.
  apply required_Return in Hmodels as (v3 & Hv3 & ->%list_of_str_Some).
  apply convert_modifications_Return in Hexcl, Hreq.
  exists entries, rules_entries. repeat split; auto.
  - destruct (Py.dict_get rules_entries "excluded_if_modifications").
    + destruct Hexcl as (items & built & ? & ? & ->). simpl. eauto.
    + now subst excluded.
  - destruct (Py.dict_get rules_entries "required_modifications").
    + destruct Hreq as (items & built & ? & ? & ->). simpl. eauto.
    + now subst required.
Qed.

Lemma load_one_sound_witness :
  exists entries rules_entries,
    Py.JDict
      [("ad_id", Py.JStr "FAA-2025-23-53");
       ("issuing_authority", Py.JStr "FAA");
       ("applicability_rules",
        Py.JDict [("aircraft_models", Py.JList [Py.JStr "MD-11"; Py.JStr "MD-11F"])])]
      = Py.JDict entries
    /\ Py.dict_get entries "ad_id" = Some (Py.JStr "FAA-2025-23-53")
    /\ Py.dict_get entries "issuing_authority" = Some (Py.JStr "FAA")
    /\ Py.dict_get entries "applicability_rules" = Some (Py.JDict rules_entries)
    /\ Py.dict_get rules_entries "aircraft_models"
       = Some (Py.JList (map Py.JStr ["MD-11"; "MD-11F"])).
Proof.
  destruct (load_one_sound int_exact
              (Py.JDict
                 [("ad_id", Py.JStr "FAA-2025-23-53");
                  ("issuing_authority", Py.JStr "FAA");
                  ("applicability_rules",
                   Py.JDict [("aircraft_models",
                              Py.JList [Py.JStr "MD-11"; Py.JStr "MD-11F"])])])
              first_directive eq_refl)
    as (entries & rules_entries & H1 & H2 & H3 & H4 & H5 & _).
  exists entries, rules_entries. auto.
Defined.

(** X17. A definition that gives only the required keys is admitted with the
    defaults for the rest: no title, date or summary, no serial constraint,
    no excluded or required modification, no additional constraint. Keys that
    are not fields of the schema are ignored. *)
Theorem load_one_defaults int_field entries rules_entries ad_id authority models :
  Py.dict_get entries "ad_id" = Some (Py.JStr ad_id) ->
  Py.dict_get entries "issuing_authority" = Some (Py.JStr authority) ->
  Py.dict_get entries "applicability_rules" = Some (Py.JDict rules_entries) ->
  Py.dict_get rules_entries "aircraft_models" = Some (Py.JList (map Py.JStr models)) ->
  (forall key, In key ["title"; "effective_date"; "summary"] ->
               Py.dict_get entries key = None) ->
  (forall key, In key ["msn_constraints"; "excluded_if_modifications";
                       "required_modifications"; "additional_constraints"] ->
               Py.dict_get rules_entries key = None) ->
  load_one int_field (Py.JDict entries)
  = Py.Return
      (AirworthinessDirective.Build ad_id authority None None
         (ApplicabilityRules.Build models None [] [] []) None).
Proof.
  intros Hid Hauth Hrules Hmodels Hopt Hropt.
  assert (Ht := Hopt "title"). assert (Hd := Hopt "effective_date").
  assert (Hs := Hopt "summary"). assert (Hm := Hropt "msn_constraints").
  assert (He := Hropt "excluded_if_modifications").
  assert (Hr := Hropt "required_modifications").
  assert (Ha := Hropt "additional_constraints").
  simpl in Ht, Hd, Hs, Hm, He, Hr, Ha.
  unfold load_one, convert_modifications, convert_msn_constraints, Py.key_in, Py.getitem,
    AirworthinessDirective.construct, ApplicabilityRules.validate,
    Pydantic.required, Pydantic.defaulted.
  rewrite Hrules. simpl.
  rewrite He, Hr, Hm by tauto. simpl.
  rewrite Hid, Hauth, Ht, Hd, Hs by tauto. simpl.
  rewrite Hmodels, Ha by tauto. simpl.
  rewrite mapM_str_map. reflexivity.
Qed.

Lemma load_one_defaults_witness :
  load_one int_exact
    (Py.JDict
       [("ad_id", Py.JStr "FAA-2025-23-53");
        ("source_url", Py.JStr "https://example.org/ad");
        ("issuing_authority", Py.JStr "FAA");
        ("applicability_rules",
         Py.JDict [("aircraft_models", Py.JList (map Py.JStr ["MD-11"; "MD-11F"]));
                   ("notes", Py.JNull)])])
  = Py.Return first_directive.
Proof.
  apply (load_one_defaults int_exact _
           [("aircraft_models", Py.JList (map Py.JStr ["MD-11"; "MD-11F"]));
            ("notes", Py.JNull)]
           "FAA-2025-23-53" "FAA" ["MD-11"; "MD-11F"]);
    try reflexivity;
    intros key Hkey; simpl in Hkey;
    repeat (destruct Hkey as [<-|Hkey]; [reflexivity|]); destruct Hkey.
Defined.

(** X18. A definition without [applicability_rules] is refused with a
    [KeyError] for that key, before any field is validated and whatever else
    the definition holds; a definition that is not a dict is refused with a
    [TypeError]. *)
Theorem load_one_without_rules int_field ad_data :
  (forall entries, ad_data = Py.JDict entries ->
                   Py.dict_get entries "applicability_rules" = None) ->
  load_one int_field ad_data
  = match ad_data with
    | Py.JDict _ => Py.Raise (Py.KeyError "applicability_rules")
    | _ => Py.Raise Py.TypeError
    end.
Proof.
  intros Hmissing. unfold load_one.
  destruct ad_data as [| | | | |entries]; try reflexivity.
  simpl. now rewrite (Hmissing entries eq_refl).
Qed.

Lemma load_one_without_rules_witness :
  load_one int_exact (Py.JDict [("ad_id", Py.JInt 7)])
  = Py.Raise (Py.KeyError "applicability_rules").
Proof.
  apply (load_one_without_rules int_exact (Py.JDict [("ad_id", Py.JInt 7)])).
  intros entries [= <-]. reflexivity.
Defined.

(** X19. A source whose document is not a list never changes the engine: an
    empty dict or an empty string loads nothing and returns, every other
    document (a directive not wrapped in a list, a null, a number, a boolean,
    a non-empty string) ends the call with a [TypeError]. *)
Theorem load_rules_document_not_a_list read_json int_field self rules_path document :
  read_json rules_path = Py.Return document ->
  (forall items, document <> Py.JList items) ->
  load_rules read_json int_field self rules_path
  = (self,
     match document with
     | Py.JDict [] | Py.JStr EmptyString => Py.Return tt
     | _ => Py.Raise Py.TypeError
     end).
Proof.
  intros Hread Hnot. unfold load_rules. rewrite Hread. simpl.
  destruct document as [| | |s|items|entries]; simpl; try reflexivity.
  - destruct s as [|c s]; reflexivity.
  - destruct (Hnot items eq_refl).
  - destruct entries as [|[k v] entries]; reflexivity.
Qed.

Lemma load_rules_document_not_a_list_witness :
  let document :=
    Py.JDict
      [("ad_id", Py.JStr "FAA-2025-23-53");
       ("issuing_authority", Py.JStr "FAA");
       ("applicability_rules",
        Py.JDict [("aircraft_models", Py.JList [Py.JStr "MD-11"])])] in
  load_rules (fun _ => Py.Return document) int_exact (Build [first_directive]) "ad.json"
  = (Build [first_directive], Py.Raise Py.TypeError).
Proof.
  intros document.
  apply (load_rules_document_not_a_list (fun _ => Py.Return document) int_exact
           (Build [first_directive]) "ad.json" document).
  - reflexivity.
  - discriminate.
Defined.

(** ** The fleet mapping in insertion order *)

Import Table.

Lemma list_to_map_dict_setitem {V} (items : list (string * V)) (key : string) (value : V) :
  list_to_map (dict_setitem items key value) =@{gmap string V}
  <[key := value]> (list_to_map items).
Proof.
  induction items as [|[k v] items IH]; simpl; [reflexivity|].
  destruct (String.eqb_spec k key) as [->|Hne]; simpl.
  - now rewrite insert_insert_eq.
  - rewrite IH. now apply insert_insert_ne.
Qed.

Lemma dict_setitem_keys {V} (items : list (string * V)) (key : string) (value : V) :
  map fst (dict_setitem items key value)
  = if Py.str_in key (map fst items) then map fst items
    else (map fst items ++ [key])%list.
Proof.
  induction items as [|[k v] items IH]; simpl; [reflexivity|].
  rewrite (String.eqb_sym key k).
  destruct (String.eqb_spec k key) as [->|Hne]; simpl; [reflexivity|].
  rewrite IH. unfold Py.str_in. now destruct (existsb _ _).
Qed.

Lemma dict_setitem_fresh {V} (items : list (string * V)) (key : string) (value : V) :
  ~ In key (map fst items) -> dict_setitem items key value = (items ++ [(key, value)])%list.
Proof.
  induction items as [|[k v] items IH]; simpl; [reflexivity|].
  intros Hnot. destruct (String.eqb_spec k key) as [->|Hne]; [tauto|].
  rewrite IH by tauto. reflexivity.
Qed.

Lemma dict_setitem_NoDup {V} (items : list (string * V)) (key : string) (value : V) :
  List.NoDup (map fst items) -> List.NoDup (map fst (dict_setitem items key value)).
Proof.
  intros Hnd. rewrite dict_setitem_keys.
  destruct (Py.str_in key (map fst items)) eqn:Hin; [exact Hnd|].
  assert (Hnot : ~ In key (map fst items)).
  { rewrite <- str_in_true_iff, Hin. discriminate. }
  apply List.NoDup_rev in Hnd. rewrite <- (rev_involutive (_ ++ _)%list).
  apply List.NoDup_rev. rewrite rev_app_distr. simpl.
  constructor; [now rewrite <- in_rev | exact Hnd].
Qed.

Lemma evaluate_fleet_items_loop_map self fleet items :
  list_to_map (evaluate_fleet_items_loop self fleet items)
  = evaluate_fleet_loop self fleet (list_to_map items).
Proof.
  revert items; induction fleet as [|a fleet IH]; intros items; simpl; [reflexivity|].
  now rewrite IH, list_to_map_dict_setitem.
Qed.

Lemma evaluate_fleet_items_loop_NoDup self fleet items :
  List.NoDup (map fst items) ->
  List.NoDup (map fst (evaluate_fleet_items_loop self fleet items)).
Proof.
  revert items; induction fleet as [|a fleet IH]; intros items Hnd; simpl; [exact Hnd|].
  now apply IH, dict_setitem_NoDup.
Qed.

Lemma evaluate_fleet_items_loop_distinct self fleet items :
  List.NoDup (map aircraft_id fleet) ->
  (forall a, In a fleet -> ~ In (aircraft_id a) (map fst items)) ->
  evaluate_fleet_items_loop self fleet items
  = (items ++ map (fleet_entry self) fleet)%list.
Proof.
  revert items; induction fleet as [|a fleet IH]; intros items Hnd Hfresh; simpl.
  - now rewrite app_nil_r.
  - simpl in Hnd. apply List.NoDup_cons_iff in Hnd as [Hnotin Hnd].
    rewrite dict_setitem_fresh by (apply Hfresh; now left).
    rewrite IH; [now rewrite <- app_assoc | exact Hnd |].
    intros b Hb. rewrite map_app, in_app_iff. simpl. intros [Hin|[Heq|[]]].
    + apply (Hfresh b); [now right | exact Hin].
    + apply Hnotin. rewrite Heq. now apply in_map.
Qed.

(** X20. The entries of the mapping [evaluate_fleet] builds, taken in
    insertion order, have pairwise distinct keys and make up, as a mapping,
    the one of [evaluate_fleet]; for a fleet whose identifiers are pairwise
    distinct they are the entries of the aircraft in fleet order. *)
Theorem evaluate_fleet_items_in_fleet_order self fleet :
  list_to_map (evaluate_fleet_items self fleet) = evaluate_fleet self fleet
  /\ List.NoDup (map fst (evaluate_fleet_items self fleet))
  /\ (List.NoDup (map aircraft_id fleet) ->
      evaluate_fleet_items self fleet = map (fleet_entry self) fleet).
Proof.
  unfold evaluate_fleet_items, evaluate_fleet. split; [|split].
  - now rewrite evaluate_fleet_items_loop_map.
  - apply evaluate_fleet_items_loop_NoDup. constructor.
  - intros Hnd. rewrite evaluate_fleet_items_loop_distinct; auto.
Qed.

Lemma evaluate_fleet_items_in_fleet_order_witness :
  let fleet :=
    [AircraftConfiguration.Build "MD-11" 48123 [] [];
     AircraftConfiguration.Build "A320-214" 5234 [] []] in
  evaluate_fleet_items (Build [first_directive]) fleet
  = map (fleet_entry (Build [first_directive])) fleet.
Proof.
  intros fleet.
  apply (evaluate_fleet_items_in_fleet_order (Build [first_directive]) fleet).
  repeat constructor; simpl; intros H;
    repeat (destruct H as [H|H]; [discriminate H|]); exact H.
Defined.

(** ** The results table *)

Lemma widen_length ws i row ws' :
  widen ws i row = Some ws' -> length ws' = length ws.
Proof.
  revert ws i; induction row as [|cell row IH]; intros ws i; simpl.
  - now intros [= <-].
  - destruct (ws !! i) as [w|]; [|discriminate].
    intros H. apply IH in H. now rewrite length_insert in H.
Qed.

Lemma widen_is_Some ws i row :
  is_Some (widen ws i row) <-> row = [] \/ (i + length row <= length ws)%nat.
Proof.
  revert ws i; induction row as [|cell row IH]; intros ws i; simpl.
  - split; [auto | eauto].
  - destruct (ws !! i) as [w|] eqn:Hw.
    + apply lookup_lt_Some in Hw. rewrite IH, length_insert.
      split; [intros [->|H]; right; simpl; lia | intros [[=]|H]].
      destruct row; [now left | right; simpl in *; lia].
    + apply lookup_ge_None in Hw.
      split; [intros [? [=]] | intros [[=]|H]; lia].
Qed.

Lemma row_of_length rs row :
  row_of rs = Some row -> length row = (3 + length rs)%nat.
Proof.
  destruct rs as [|r rs]; [discriminate|]. intros [= <-].
  simpl. now rewrite length_map.
Qed.

Lemma row_of_is_Some rs : is_Some (row_of rs) <-> rs <> [].
Proof.
  destruct rs; simpl; split; try congruence; [intros [? [=]] | eauto].
Qed.

Lemma build_rows_is_Some results rows ws :
  is_Some (build_rows results rows ws) <->
  forall id rs, In (id, rs) results -> rs <> [] /\ (3 + length rs <= length ws)%nat.
Proof.
  revert rows ws; induction results as [|[id0 rs0] results IH]; intros rows ws; simpl.
  - split; [intros _ ? ? [] | eauto].
  - destruct (row_of rs0) as [row|] eqn:Hrow; simpl.
    + pose proof (row_of_length _ _ Hrow) as Hlen.
      assert (Hne : rs0 <> []) by (apply row_of_is_Some; eauto).
      destruct (widen ws 0 row) as [ws'|] eqn:Hw; simpl.
      * pose proof (widen_length _ _ _ _ Hw) as Hws.
        assert (Hfit : (3 + length rs0 <= length ws)%nat).
        { destruct (proj1 (widen_is_Some ws 0 row)) as [->|H]; [eauto|simpl in Hlen; lia|lia]. }
        rewrite IH, Hws. split.
        -- intros H id rs [[= <- <-]|Hin]; [auto | eauto].
        -- intros H id rs Hin. apply (H id). now right.
      * split; [intros [? [=]]|]. intros H.
        destruct (H id0 rs0) as [_ Hfit]; [now left|].
        assert (Hsome : is_Some (widen ws 0 row)) by (apply widen_is_Some; right; lia).
        rewrite Hw in Hsome. destruct Hsome as [? [=]].
    + split; [intros [? [=]]|]. intros H.
      destruct (H id0 rs0) as [Hne _]; [now left|].
      apply row_of_is_Some in Hne. rewrite Hrow in Hne. destruct Hne as [? [=]].
Qed.

Lemma build_rows_rows results rows ws rows' ws' :
  build_rows results rows ws = Some (rows', ws') ->
  length ws' = length ws
  /\ exists new,
       rows' = (rows ++ new)%list
       /\ Forall2 (fun entry row => row_of (snd entry) = Some row) results new.
Proof.
  revert rows ws; induction results as [|[id0 rs0] results IH]; intros rows ws; simpl.
  - intros [= <- <-]. split; [reflexivity|]. exists []. rewrite app_nil_r.
    split; [reflexivity | constructor].
  - destruct (row_of rs0) as [row|] eqn:Hrow; simpl; [|discriminate].
    destruct (widen ws 0 row) as [ws1|] eqn:Hw; simpl; [|discriminate].
    intros H. apply IH in H as (Hlen & new & -> & Hnew).
    apply widen_length in Hw. split; [congruence|].
    exists (row :: new). rewrite <- app_assoc. split; [reflexivity | now constructor].
Qed.

Lemma cells_is_Some ws i row :
  (i + length row <= length ws)%nat -> is_Some (cells ws i row).
Proof.
  revert i; induction row as [|cell row IH]; intros i Hlen; simpl; [eauto|].
  simpl in Hlen. destruct (lookup_lt_is_Some_2 ws i) as [w ->]; [lia|]. simpl.
  destruct (IH (S i)) as [formatted ->]; [lia|]. simpl. eauto.
Qed.

Lemma line_is_Some ws row : (length row <= length ws)%nat -> is_Some (line ws row).
Proof.
  intros Hlen. unfold line.
  destruct (cells_is_Some ws 0 row) as [formatted ->]; [lia|]. simpl. eauto.
Qed.

Lemma mapM_line_is_Some ws (rows : list (list string)) :
  Forall (fun row => (length row <= length ws)%nat) rows ->
  is_Some (mapM (line ws) rows).
Proof.
  intros H. apply mapM_is_Some. eapply Forall_impl; [exact H|].
  intros row Hrow. now apply line_is_Some.
Qed.

Lemma rows_fit (results : list (string * list ComplianceResult.t)) new (ws : list nat) :
  Forall2 (fun entry row => row_of (snd entry) = Some row) results new ->
  (forall id rs, In (id, rs) results -> (3 + length rs <= length ws)%nat) ->
  Forall (fun row => (length row <= length ws)%nat) new.
Proof.
  induction 1 as [|[id rs] row results new Hrow _ IH]; intros Hall; constructor.
  - simpl in Hrow. apply row_of_length in Hrow.
    specialize (Hall id rs (or_introl eq_refl)). lia.
  - apply IH. intros id' rs' Hin. apply (Hall id'). now right.
Qed.

Lemma table_lines_is_Some results :
  is_Some (table_lines results) <->
  forall id rs, In (id, rs) results ->
                rs <> [] /\ (length rs <= length (first_results results))%nat.
Proof.
  unfold table_lines.
  set (header := (["Aircraft Model"; "MSN"; "Modifications"] ++ _)%list).
  assert (Hheader : length (map String.length header) = (3 + length (first_results results))%nat).
  { rewrite length_map. subst header. destruct results as [|[? ?] ?]; simpl;
      [reflexivity | now rewrite length_map]. }
  assert (Hiff : is_Some (build_rows results [] (map String.length header)) <->
                 forall id rs, In (id, rs) results ->
                   rs <> [] /\ (length rs <= length (first_results results))%nat).
  { rewrite build_rows_is_Some, Hheader.
    split; intros H id rs Hin; destruct (H id rs Hin); split; auto; lia. }
  rewrite <- Hiff.
  destruct (build_rows results [] (map String.length header)) as [[rows ws]|] eqn:Hb;
    simpl; [|split; intros [? [=]]].
  split; [eauto|]. intros _.
  pose proof (proj1 Hiff (ltac:(eauto))) as Hall.
  apply build_rows_rows in Hb as (Hlen & new & -> & Hnew). simpl.
  destruct (line_is_Some ws header) as [header_row ->].
  { rewrite Hlen. rewrite length_map. lia. }
  simpl. destruct (mapM_line_is_Some ws new) as [row_lines ->]; [|simpl; eauto].
  apply (rows_fit results); [exact Hnew|].
  intros id rs Hin. destruct (Hall id rs Hin) as [_ Hle]. lia.
Qed.

(** X21. [format_results_table] returns a table exactly when every entry of
    the mapping lists at least one result and no entry lists more results
    than the first; otherwise it raises [IndexError]. *)
Theorem format_results_table_returns_iff results :
  is_Some (format_results_table results) <->
  forall id rs, In (id, rs) results ->
                rs <> [] /\ (length rs <= length (first_results results))%nat.
Proof.
  unfold format_results_table. rewrite fmap_is_Some.
  apply table_lines_is_Some.
Qed.

Lemma dict_setitem_In {V} (items : list (string * V)) key value entry :
  In entry (dict_setitem items key value) -> In entry items \/ entry = (key, value).
Proof.
  induction items as [|[k v] items IH]; simpl.
  - intros [<-|[]]. now right.
  - destruct (String.eqb_spec k key) as [->|Hne]; simpl.
    + intros [<-|H]; auto.
    + intros [<-|H]; [auto|]. destruct (IH H); auto.
Qed.

Lemma dict_setitem_nonempty {V} (items : list (string * V)) key value :
  dict_setitem items key value <> [].
Proof.
  destruct items as [|[k v] items]; simpl; [discriminate|].
  destruct (String.eqb k key); discriminate.
Qed.

Lemma evaluate_fleet_items_loop_In self fleet items entry :
  In entry (evaluate_fleet_items_loop self fleet items) ->
  In entry items \/ exists a, In a fleet /\ entry = fleet_entry self a.
Proof.
  revert items; induction fleet as [|a fleet IH]; intros items; simpl; [auto|].
  intros H. apply IH in H as [H|(b & Hb & ->)]; [|eauto].
  apply dict_setitem_In in H as [H| ->]; [auto|]. right. exists a. auto.
Qed.

Lemma evaluate_fleet_items_loop_nonempty self fleet items :
  items <> [] -> evaluate_fleet_items_loop self fleet items <> [].
Proof.
  revert items; induction fleet as [|a fleet IH]; intros items Hne; simpl; [exact Hne|].
  apply IH, dict_setitem_nonempty.
Qed.

Lemma first_results_In (results : list (string * list ComplianceResult.t)) :
  results <> [] -> exists id, In (id, first_results results) results.
Proof.
  destruct results as [|[id rs] results]; [congruence|]. intros _. exists id. now left.
Qed.

(** X22. The table of a fleet evaluation can be formatted exactly when the
    fleet is empty or the engine has at least one directive loaded: with
    aircraft to show and nothing loaded, [format_results_table] raises
    [IndexError]. *)
Theorem format_results_table_of_fleet self fleet :
  is_Some (format_results_table (evaluate_fleet_items self fleet)) <->
  fleet = [] \/ ads self <> [].
Proof.
  unfold format_results_table. rewrite fmap_is_Some, table_lines_is_Some.
  assert (Hentry : forall id rs, In (id, rs) (evaluate_fleet_items self fleet) ->
                                 length rs = length (ads self)).
  { intros id rs Hin. apply evaluate_fleet_items_loop_In in Hin as [[]|(a & _ & [= _ ->])].
    rewrite evaluate_all_map. apply length_map. }
  split.
  - intros Hall. destruct fleet as [|a fleet]; [now left|]. right.
    assert (Hne : evaluate_fleet_items self (a :: fleet) <> []).
    { unfold evaluate_fleet_items. simpl.
      apply evaluate_fleet_items_loop_nonempty. discriminate. }
    destruct (first_results_In _ Hne) as [id Hin].
    destruct (Hall _ _ Hin) as [Hrs _]. apply Hentry in Hin.
    intros Hads. rewrite Hads in Hin. destruct (first_results _); [congruence|discriminate].
  - intros [->|Hads] id rs Hin; [destruct Hin|].
    pose proof (Hentry _ _ Hin) as Hlen.
    assert (Hne : evaluate_fleet_items self fleet <> []) by (intros H; now rewrite H in Hin).
    destruct (first_results_In _ Hne) as [id' Hin'].
    apply Hentry in Hin'. split; [|lia].
    intros ->. destruct (ads self); [congruence | discriminate].
Qed.

Lemma string_length_app (s t : string) :
  String.length (s +:+ t) = (String.length s + String.length t)%nat.
Proof.
  induction s as [|c s IH]; [reflexivity|].
  rewrite app_String. simpl. now rewrite IH.
Qed.

Lemma repeat_char_length (c : ascii) (n : nat) : String.length (repeat_char c n) = n.
Proof. induction n as [|n IH]; simpl; [reflexivity | now rewrite IH]. Qed.

Lemma ljust_length (s : string) (w : nat) :
  (String.length s <= w)%nat -> String.length (ljust s w) = w.
Proof.
  intros H. unfold ljust. rewrite string_length_app, repeat_char_length. lia.
Qed.

Lemma list_sum_cons (n : nat) (l : list nat) : list_sum (n :: l) = (n + list_sum l)%nat.
Proof. reflexivity. Qed.

Lemma join_length (sep : string) (parts : list string) :
  parts <> [] ->
  (String.length (Py.join sep parts) + String.length sep)%nat
  = list_sum (map (fun p => String.length p + String.length sep)%nat parts).
Proof.
  induction parts as [|p parts IH]; [congruence|]. intros _.
  destruct parts as [|q parts]; [simpl; lia|].
  change (Py.join sep (p :: q :: parts)) with (p +:+ sep +:+ Py.join sep (q :: parts)).
  specialize (IH ltac:(discriminate)).
  rewrite !string_length_app. cbn [map] in *.
  rewrite !list_sum_cons in *. lia.
Qed.

Lemma grows_refl ws : grows ws ws.
Proof. split; [reflexivity | eauto]. Qed.

Lemma grows_trans ws1 ws2 ws3 : grows ws1 ws2 -> grows ws2 ws3 -> grows ws1 ws3.
Proof.
  intros [Hl1 H1] [Hl2 H2]. split; [congruence|].
  intros j w Hw. destruct (H1 j w Hw) as (w1 & Hw1 & Hle1).
  destruct (H2 j w1 Hw1) as (w2 & Hw2 & Hle2). exists w2. split; [exact Hw2 | lia].
Qed.

Lemma fits_from_grows ws ws' i row : fits_from ws i row -> grows ws ws' -> fits_from ws' i row.
Proof.
  intros Hfit [_ Hgrow] j cell Hcell.
  destruct (Hfit j cell Hcell) as (w & Hw & Hle).
  destruct (Hgrow _ w Hw) as (w' & Hw' & Hle'). exists w'. split; [exact Hw' | lia].
Qed.

Lemma grows_insert ws i (w : nat) :
  ws !! i = Some w -> forall n, grows ws (<[i := Nat.max w n]> ws).
Proof.
  intros Hw n. split; [apply length_insert|].
  intros j x Hx. destruct (decide (i = j)) as [->|Hne].
  - exists (Nat.max w n). rewrite list_lookup_insert_eq by (now apply lookup_lt_Some in Hw).
    split; [reflexivity|]. rewrite Hw in Hx. injection Hx as <-. lia.
  - exists x. rewrite list_lookup_insert_ne by exact Hne. auto.
Qed.

Lemma widen_spec ws i row ws' :
  widen ws i row = Some ws' -> grows ws ws' /\ fits_from ws' i row.
Proof.
  revert ws i; induction row as [|cell row IH]; intros ws i; simpl.
  - intros [= <-]. split; [apply grows_refl | intros j c; rewrite lookup_nil; discriminate].
  - destruct (ws !! i) as [w|] eqn:Hw; [|discriminate].
    intros H. apply IH in H as [Hgrow Hfit].
    pose proof (grows_insert ws i w Hw (String.length cell)) as Hstep.
    split; [now apply (grows_trans _ _ _ Hstep)|].
    intros [|j] c Hc.
    + simpl in Hc. injection Hc as <-. rewrite Nat.add_0_r.
      destruct Hgrow as [_ Hgrow].
      destruct (Hgrow i (Nat.max w (String.length cell))) as (w' & Hw' & Hle).
      { apply list_lookup_insert_eq. now apply lookup_lt_Some in Hw. }
      exists w'. split; [exact Hw' | lia].
    + simpl in Hc. destruct (Hfit j c Hc) as (w' & Hw' & Hle).
      exists w'. split; [|exact Hle]. now rewrite <- Nat.add_succ_comm.
Qed.

Lemma build_rows_fits results rows ws rows' ws' :
  build_rows results rows ws = Some (rows', ws') ->
  Forall (fits_from ws 0) rows ->
  grows ws ws' /\ Forall (fits_from ws' 0) rows'.
Proof.
  revert rows ws; induction results as [|[id0 rs0] results IH]; intros rows ws; simpl.
  - intros [= <- <-] Hfit. split; [apply grows_refl | exact Hfit].
  - destruct (row_of rs0) as [row|]; simpl; [|discriminate].
    destruct (widen ws 0 row) as [ws1|] eqn:Hw; simpl; [|discriminate].
    apply widen_spec in Hw as [Hgrow Hrow].
    intros H Hfit. apply IH in H as [Hgrow' Hall].
    + split; [now apply (grows_trans _ _ _ Hgrow) | exact Hall].
    + apply Forall_app. split; [|now constructor].
      eapply Forall_impl; [exact Hfit|]. intros r Hr. now apply (fits_from_grows ws).
Qed.

Lemma cells_lengths ws i row formatted :
  fits_from ws i row -> cells ws i row = Some formatted ->
  map String.length formatted
  = map (fun w => w + 2)%nat (take (length row) (drop i ws)).
Proof.
  revert i formatted; induction row as [|cell row IH]; intros i formatted Hfit; simpl.
  - now intros [= <-].
  - destruct (Hfit 0%nat cell eq_refl) as (w & Hw & Hle). rewrite Nat.add_0_r in Hw.
    rewrite Hw. simpl. destruct (cells ws (S i) row) as [rest|] eqn:Hrest; [|discriminate].
    simpl. intros [= <-]. rewrite (drop_S _ _ _ Hw). simpl.
    rewrite (IH (S i) rest); [|intros j c Hc|exact Hrest].
    + rewrite !string_length_app, ljust_length by exact Hle. f_equal. simpl. lia.
    + destruct (Hfit (S j) c Hc) as (w' & Hw' & Hle'). exists w'.
      split; [|exact Hle']. now rewrite Nat.add_succ_comm.
Qed.

Lemma line_length ws row l :
  fits_from ws 0 row -> length row = length ws -> ws <> [] ->
  line ws row = Some l -> String.length l = table_width ws.
Proof.
  intros Hfit Hlen Hne. unfold line.
  destruct (cells ws 0 row) as [formatted|] eqn:Hcells; [|discriminate].
  simpl. intros [= <-].
  apply cells_lengths in Hcells; [|exact Hfit].
  rewrite Hlen, drop_0, firstn_all in Hcells.
  assert (Hfne : formatted <> []).
  { intros ->. destruct ws; [congruence | discriminate]. }
  pose proof (join_length "|" formatted Hfne) as Hjoin.
  rewrite !string_length_app. unfold table_width. simpl String.length in *.
  assert (Hsum : list_sum (map (fun p => (String.length p + 1)%nat) formatted)
                 = list_sum (map (fun w => (w + 3)%nat) ws)).
  { rewrite <- (map_map String.length (fun n => (n + 1)%nat)), Hcells, map_map.
    f_equal. apply map_ext. intros; lia. }
  lia.
Qed.

Lemma separator_length ws :
  ws <> [] ->
  String.length ("+" +:+ Py.join "+" (map (fun w => repeat_char "-" (w + 2)) ws) +:+ "+")
  = table_width ws.
Proof.
  intros Hne.
  assert (Hmne : map (fun w => repeat_char "-" (w + 2)) ws <> []).
  { destruct ws; [congruence | discriminate]. }
  pose proof (join_length "+" _ Hmne) as Hjoin.
  rewrite !string_length_app. unfold table_width. simpl String.length in *.
  rewrite map_map in Hjoin.
  assert (Hsum : list_sum (map (fun w => (String.length (repeat_char "-" (w + 2)) + 1)%nat) ws)
                 = list_sum (map (fun w => (w + 3)%nat) ws)).
  { f_equal. apply map_ext. intros w. rewrite repeat_char_length. lia. }
  lia.
Qed.

Lemma header_fits (header : list string) : fits_from (map String.length header) 0 header.
Proof.
  intros j cell Hcell. exists (String.length cell).
  split; [|lia]. simpl. now rewrite list_lookup_fmap, Hcell.
Qed.

Lemma row_lines_lengths ws (results : list (string * list ComplianceResult.t))
    (rows : list (list string)) (row_lines : list string) :
  ws <> [] ->
  Forall2 (fun entry row => row_of (snd entry) = Some row) results rows ->
  (forall id rs, In (id, rs) results -> (3 + length rs)%nat = length ws) ->
  Forall (fits_from ws 0) rows ->
  Forall2 (fun row l => line ws row = Some l) rows row_lines ->
  length row_lines = length results
  /\ Forall (fun l => String.length l = table_width ws) row_lines.
Proof.
  intros Hne Hrows. revert row_lines.
  induction Hrows as [|[id rs] row results rows Hrow _ IH];
    intros row_lines Hlen Hfits Hlines.
  - apply Forall2_nil_inv_l in Hlines as ->. split; [reflexivity | constructor].
  - apply Forall2_cons_inv_l in Hlines as (l & rest & Hl & Hrest & ->).
    apply Forall_cons_1 in Hfits as [Hfit Hfits].
    destruct (IH rest) as [IHlen IHall]; auto.
    { intros id' rs' Hin. apply (Hlen id'). now right. }
    split; [simpl; now rewrite IHlen|]. constructor; [|exact IHall].
    apply (line_length ws row); auto.
    simpl in Hrow. apply row_of_length in Hrow. rewrite Hrow. apply (Hlen id). now left.
Qed.

(** X23. When every entry of the mapping lists as many results as the
    first, the text [format_results_table] returns is a rectangle: its lines,
    joined by line feeds, are four more than the entries (three rules and the
    header), and all of them have the same length. *)
Theorem format_results_table_rectangular results text :
  format_results_table results = Some text ->
  (forall id rs, In (id, rs) results -> length rs = length (first_results results)) ->
  exists lines width,
    text = Py.join newline lines
    /\ length lines = (length results + 4)%nat
    /\ Forall (fun l => String.length l = width) lines.
Proof.
  unfold format_results_table.
  destruct (table_lines results) as [lines|] eqn:Hlines; [|discriminate].
  simpl. intros [= <-] Hsame. exists lines.
  unfold table_lines in Hlines.
  set (header := (["Aircraft Model"; "MSN"; "Modifications"] ++ _)%list) in Hlines.
  assert (Hheader : length header = (3 + length (first_results results))%nat).
  { subst header. destruct results as [|[? ?] ?]; simpl;
      [reflexivity | now rewrite length_map]. }
  destruct (build_rows results [] (map String.length header)) as [[rows ws]|] eqn:Hb;
    [|discriminate].
  simpl in Hlines.
  destruct (line ws header) as [header_row|] eqn:Hh; [|discriminate]. simpl in Hlines.
  destruct (mapM (line ws) rows) as [row_lines|] eqn:Hm; [|discriminate].
  simpl in Hlines. injection Hlines as <-.
  pose proof (build_rows_fits _ _ _ _ _ Hb (Forall_nil_2 _)) as [Hgrow Hfits].
  apply build_rows_rows in Hb as (Hlen & new & -> & Hnew). simpl in *.
  rewrite length_map in Hlen.
  assert (Hne : ws <> []) by (intros ->; simpl in Hlen; lia).
  apply mapM_Some_1 in Hm.
  destruct (row_lines_lengths ws results new row_lines Hne Hnew) as [Hcount Hall]; auto.
  { intros id rs Hin. rewrite (Hsame id rs Hin). lia. }
  exists (table_width ws). split; [reflexivity|]. split.
  - rewrite length_app. simpl. lia.
  - pose proof (separator_length ws Hne) as Hsep.
    assert (Hhr : String.length header_row = table_width ws).
    { apply (line_length ws header); auto.
      apply (fits_from_grows (map String.length header)); [apply header_fits | exact Hgrow]. }
    repeat (constructor; [assumption|]).
    apply Forall_app. split; [exact Hall|]. constructor; [exact Hsep | constructor].
Qed.

Lemma format_results_table_rectangular_witness :
  let results :=
    evaluate_fleet_items (Build [first_directive])
      [AircraftConfiguration.Build "MD-11" 48123 [] [];
       AircraftConfiguration.Build "Boeing 737-800" 30123 [] []] in
  exists lines width,
    Py.join newline
      ["+----------------+-------+---------------+----------------+";
       "| Aircraft Model | MSN   | Modifications | FAA-2025-23-53 |";
       "+----------------+-------+---------------+----------------+";
       "| MD-11          | 48123 | None          | yes            |";
       "| Boeing 737-800 | 30123 | None          | not applicable |";
       "+----------------+-------+---------------+----------------+"]
    = Py.join newline lines
    /\ length lines = (length results + 4)%nat
    /\ Forall (fun l => String.length l = width) lines.
Proof.
  intros results.
  apply (format_results_table_rectangular results).
  - reflexivity.
  - intros id rs [[= _ <-]|[[= _ <-]|[]]]; reflexivity.
Defined.

(** ** Which match the reason cites *)

Lemma first_match_first c before m after :
  (forall m', In m' before -> ModificationConstraint.matches c m' = false) ->
  ModificationConstraint.matches c m = true ->
  first_match c (before ++ m :: after) = Some m.
Proof.
  intros Hbefore Hm. induction before as [|x before IH]; simpl.
  - now rewrite Hm.
  - rewrite (Hbefore x) by now left. apply IH. intros m' Hin. apply Hbefore. now right.
Qed.

Lemma first_hit_first cs_before c cs_after mods_before m mods_after :
  (forall c' m', In c' cs_before -> In m' (mods_before ++ m :: mods_after) ->
                 ModificationConstraint.matches c' m' = false) ->
  (forall m', In m' mods_before -> ModificationConstraint.matches c m' = false) ->
  ModificationConstraint.matches c m = true ->
  first_hit (cs_before ++ c :: cs_after) (mods_before ++ m :: mods_after) = Some (c, m).
Proof.
  intros Hcs Hmods Hm. induction cs_before as [|x cs_before IH]; simpl.
  - now rewrite first_match_first.
  - rewrite (proj2 (first_match_None x _)) by (intros m' Hin; apply Hcs; [now left | exact Hin]).
    apply IH. intros c' m' Hc'. apply Hcs. now right.
Qed.

(** X24. When the aircraft is excluded, the exclusion sentence cites the
    first excluded constraint, in the directive's order, that matches some
    modification, together with the first modification of the aircraft that
    this constraint matches. *)
Theorem check_excluded_modifications_cites_first self aircraft ad
    cs_before c cs_after mods_before m mods_after :
  ApplicabilityRules.excluded_if_modifications (AirworthinessDirective.applicability_rules ad)
    = (cs_before ++ c :: cs_after)%list ->
  AircraftConfiguration.modifications aircraft = (mods_before ++ m :: mods_after)%list ->
  (forall c' m', In c' cs_before -> In m' (mods_before ++ m :: mods_after) ->
                 ModificationConstraint.matches c' m' = false) ->
  (forall m', In m' mods_before -> ModificationConstraint.matches c m' = false) ->
  ModificationConstraint.matches c m = true ->
  check_excluded_modifications self aircraft ad
  = (true, "Aircraft has excluded modification: " +:+ ModificationConstraint.mod_id c
             +:+ " (matched: " +:+ m +:+ ")").
Proof.
  intros Hcs Hmods Hbefore Hfirst Hm. unfold check_excluded_modifications.
  rewrite Hcs, Hmods. now rewrite first_hit_first.
Qed.

Lemma check_excluded_modifications_cites_first_witness :
  let c1 := ModificationConstraint.Build "mod 24977" [] None in
  let c2 := ModificationConstraint.Build "mod 24591" [] None in
  let c3 := ModificationConstraint.Build "SB A320-57-1089" [] None in
  check_excluded_modifications (Build [])
    (AircraftConfiguration.Build "A320-214" 7456
       ["SB A320-57-1089 Rev 04"; "mod 24591 (production)"; "MOD 24591"] [])
    (AirworthinessDirective.Build "EASA-2025-0254" "EASA" None None
       (ApplicabilityRules.Build ["A320-214"] None [c1; c2; c3] [] []) None)
  = (true, "Aircraft has excluded modification: " +:+ "mod 24591"
             +:+ " (matched: " +:+ "mod 24591 (production)" +:+ ")").
Proof.
  intros c1 c2 c3.
  apply (check_excluded_modifications_cites_first (Build []) _ _
           [c1] c2 [c3] ["SB A320-57-1089 Rev 04"] "mod 24591 (production)" ["MOD 24591"]).
  - reflexivity.
  - reflexivity.
  - intros c' m' [<-|[]] Hm'. simpl in Hm'.
    repeat (destruct Hm' as [<-|Hm']; [reflexivity|]). destruct Hm'.
  - intros m' [<-|[]]. reflexivity.
  - reflexivity.
Defined.

(** X25. When a non-empty requirement list is satisfied, the requirement
    sentence cites the first required constraint, in the directive's order,
    that matches some modification of the aircraft. *)
Theorem check_required_modifications_cites_first self aircraft ad
    cs_before c cs_after mods_before m mods_after :
  ApplicabilityRules.required_modifications (AirworthinessDirective.applicability_rules ad)
    = (cs_before ++ c :: cs_after)%list ->
  AircraftConfiguration.modifications aircraft = (mods_before ++ m :: mods_after)%list ->
  (forall c' m', In c' cs_before -> In m' (mods_before ++ m :: mods_after) ->
                 ModificationConstraint.matches c' m' = false) ->
  (forall m', In m' mods_before -> ModificationConstraint.matches c m' = false) ->
  ModificationConstraint.matches c m = true ->
  check_required_modifications self aircraft ad
  = (true, "Aircraft has required modification: " +:+ ModificationConstraint.mod_id c).
Proof.
  intros Hcs Hmods Hbefore Hfirst Hm. unfold check_required_modifications.
  rewrite Hcs, Hmods, first_hit_first by assumption.
  destruct cs_before; reflexivity.
Qed.

Lemma check_required_modifications_cites_first_witness :
  let c1 := ModificationConstraint.Build "mod 24977" [] None in
  let c2 := ModificationConstraint.Build "mod 24591" [] None in
  check_required_modifications (Build [])
    (AircraftConfiguration.Build "A320-232" 6789 ["mod 24591 (production)"] [])
    (AirworthinessDirective.Build "EASA-2025-0254" "EASA" None None
       (ApplicabilityRules.Build ["A320-232"] None [] [c1; c2] []) None)
  = (true, "Aircraft has required modification: " +:+ "mod 24591").
Proof.
  intros c1 c2.
  apply (check_required_modifications_cites_first (Build []) _ _
           [c1] c2 [] [] "mod 24591 (production)" []).
  - reflexivity.
  - reflexivity.
  - intros c' m' [<-|[]] [<-|[]]. reflexivity.
  - intros m' [].
  - reflexivity.
Defined.

(** X26. [ModificationConstraint] is built only from a dict that gives
    [mod_id] as a string; the constraint built has that identifier, the
    aliases the dict lists (none when the key is absent), and a description
    only when the dict gives one that is not null. *)
Theorem modification_constraint_construct_sound data c :
  ModificationConstraint.construct data = Py.Return c ->
  exists fields,
    data = Py.JDict fields
    /\ Py.dict_get fields "mod_id" = Some (Py.JStr (ModificationConstraint.mod_id c))
    /\ match Py.dict_get fields "aliases" with
       | None => ModificationConstraint.aliases c = []
       | Some v => v = Py.JList (map Py.JStr (ModificationConstraint.aliases c))
       end
    /\ match ModificationConstraint.description c with
       | None => Py.dict_get fields "description" = None
                 \/ Py.dict_get fields "description" = Some Py.JNull
       | Some text => Py.dict_get fields "description" = Some (Py.JStr text)
       end.
Proof.
  destruct data; try discriminate. simpl. unfold ModificationConstraint.validate.
  intros H. exists entries.
  apply bind_Return in H as (id & Hid & H).
  apply bind_Return in H as (als & Hals & H).
  apply bind_Return in H as (descr & Hdescr & H).
  injection H as <-. simpl.
  apply required_Return in Hid as (v & Hv & ->%str_Some).
  split; [reflexivity|]. split; [exact Hv|]. split.
  - apply defaulted_Return in Hals as [[-> ->]|(v' & -> & Hl)]; [reflexivity|].
    now apply list_of_str_Some.
  - apply defaulted_Return in Hdescr as [[Hnone ->]|(v' & Hv' & Hvalid)]; [now left|].
    destruct v'; simpl in Hvalid; simplify_eq/=; auto.
Qed.

Lemma modification_constraint_construct_sound_witness :
  exists fields,
    Py.JDict [("mod_id", Py.JStr "SB A320-57-1089");
              ("aliases", Py.JList [Py.JStr "SB 57-1089"])]
      = Py.JDict fields
    /\ Py.dict_get fields "mod_id" = Some (Py.JStr "SB A320-57-1089")
    /\ match Py.dict_get fields "aliases" with
       | None => ["SB 57-1089"] = []
       | Some v => v = Py.JList (map Py.JStr ["SB 57-1089"])
       end
    /\ (Py.dict_get fields "description" = None
        \/ Py.dict_get fields "description" = Some Py.JNull).
Proof.
  apply (modification_constraint_construct_sound
           (Py.JDict [("mod_id", Py.JStr "SB A320-57-1089");
                      ("aliases", Py.JList [Py.JStr "SB 57-1089"])])
           (ModificationConstraint.Build "SB A320-57-1089" ["SB 57-1089"] None)).
  reflexivity.
Defined.
